(** * API Klasifikasi Cabai: a shallow embedding of [main.py]

    The FastAPI application of [main.py] stores an uploaded image in the
    directory [uploads] and a row in the MySQL table [klasifikasi], and
    answers four read queries over that table.  This file embeds the
    upload handler and the four read handlers as functions over an explicit
    world (blob directory, table, auto-increment counter, effect trace) in a
    state-and-exception monad, and proves the properties the specification
    states about them. *)

From Stdlib Require Import ZArith List String Ascii Bool Lia Permutation Sorted.
From Stdlib Require Import Floats.
From stdpp Require Import base gmap strings list sorting.

Local Open Scope Z_scope.

(** ** Python strings: the two [str] methods the upload handler calls *)

Module PyStr.

(** [s.split(sep)] for a one-character separator: the pieces between the
    occurrences of [sep], in order; never the empty list. *)
Fixpoint split (sep : ascii) (s : string) : list string :=
  match s with
  | EmptyString => [EmptyString]
  | String c s' =>
      if Ascii.eqb c sep then EmptyString :: split sep s'
      else match split sep s' with
           | [] => [String c EmptyString]
           | piece :: pieces => String c piece :: pieces
           end
  end.

(** [l[-1]]: [None] stands for Python's [IndexError] on an empty list. *)
Definition index_last {A} (l : list A) : option A := last l.

Definition is_upper (c : ascii) : bool :=
  let n := N_of_ascii c in ((65 <=? n) && (n <=? 90))%N.

(** [c.lower()] on one character of the byte string.  Only the ASCII
    capitals move; Python also lowers capitals outside ASCII, but none of
    those lowers to a letter of an allowed extension, so membership of the
    lowered extension in [allowed_extensions] is the same. *)
Definition lower_ascii (c : ascii) : ascii :=
  if is_upper c then ascii_of_N (N_of_ascii c + 32) else c.

Fixpoint lower (s : string) : string :=
  match s with
  | EmptyString => EmptyString
  | String c s' => String (lower_ascii c) (lower s')
  end.

(** [sep in s] *)
Fixpoint contains (sep : ascii) (s : string) : bool :=
  match s with
  | EmptyString => false
  | String c s' => Ascii.eqb c sep || contains sep s'
  end.

End PyStr.

(** ** Paths: which file a location names *)

Module PyPath.

(** [sep.join(pieces)] *)
Fixpoint join (sep : string) (pieces : list string) : string :=
  match pieces with
  | [] => EmptyString
  | piece :: pieces' =>
      match pieces' with
      | [] => piece
      | _ :: _ => piece +:+ sep +:+ join sep pieces'
      end
  end.

(** The walk [open] makes along the components of a relative path, with
    the directories entered so far in [dirs], innermost first: an empty
    component (a doubled slash) and [.] stay where they are, [..] leaves
    the innermost directory, or climbs above the working directory when
    none is left. *)
Fixpoint walk (dirs : list string) (components : list string) : list string :=
  match components with
  | [] => reverse dirs
  | c :: cs =>
      if String.eqb c "" || String.eqb c "." then walk dirs cs
      else if String.eqb c ".." then
        match dirs with
        | d :: dirs' =>
            if String.eqb d ".." then walk (c :: dirs) cs else walk dirs' cs
        | [] => walk [c] cs
        end
      else walk (c :: dirs) cs
  end.

(** The file a location names, as its shortest path from the working
    directory.  Locations are relative to the working directory, as all
    those the program forms are ([UPLOAD_DIR] is relative), and two of them
    name one file exactly when they resolve to the same path (a directory
    tree without links and with case-sensitive names is assumed; whether
    the directories on the way exist is the business of [open], which
    raises when they do not). *)
Definition resolve (p : string) : string :=
  join "/" (walk [] (PyStr.split "/" p)).

End PyPath.

(** ** Python numbers: [int / int], [float * int] and [round(x, n)] *)

Module PyNum.

(** A JSON number as the handler produces it: the statistics report an
    [int] [0] in one branch and a [float] in the other. *)
Inductive Num : Type :=
| NInt (z : Z)
| NFloat (f : float).

(** The integer [z] as an exact (unnormalised) binary value. *)
Definition Z2SF (z : Z) : spec_float :=
  match z with
  | Z0 => S754_zero false
  | Zpos p => S754_finite false p 0
  | Zneg p => S754_finite true p 0
  end.

(** [a / b] on two [int]s with [b] not zero: the exact quotient rounded
    once to the nearest double.  ([b = 0] raises [ZeroDivisionError];
    the caller [truediv] below checks it.) *)
Definition int_truediv (a b : Z) : float :=
  SF2Prim (SFdiv prec emax (Z2SF a) (Z2SF b)).

(** [x * n] for a [float] [x] and an [int] [n] that a double holds
    exactly. *)
Definition float_mul_int (x : float) (n : Z) : float :=
  PrimFloat.mul x (SF2Prim (SFdiv prec emax (Z2SF n) (Z2SF 1))).

(** The integer nearest to [n / d], ties to even ([0 < d], [0 <= n]). *)
Definition div_half_even (n d : Z) : Z :=
  let q := n / d in
  let r := n mod d in
  if 2 * r <? d then q
  else if d <? 2 * r then q + 1
  else if Z.even q then q else q + 1.

(** [round(x, ndigits)] for [0 <= ndigits]: the exact value of [x] is
    rounded half-even to [ndigits] decimals, and the double nearest to
    that decimal is returned; infinities and NaN round to themselves. *)
Definition round (x : float) (ndigits : Z) : float :=
  let scale := 10 ^ ndigits in
  match Prim2SF x with
  | S754_finite s m e =>
      let k := if 0 <=? e then Z.pos m * 2 ^ e * scale
               else div_half_even (Z.pos m * scale) (2 ^ (- e)) in
      if k =? 0 then SF2Prim (S754_zero s)
      else SF2Prim (SFdiv prec emax (Z2SF (if s then - k else k)) (Z2SF scale))
  | _ => x
  end.

End PyNum.

(** ** The data model *)

(** A row of the table [klasifikasi] (class [Klasifikasi]).  The two
    timestamps are kept as the database clock's reading. *)
Record Klasifikasi : Type := {
  id : Z;
  path : string;
  hasil : Z;          (* 0 = Sakit, 1 = Sehat *)
  created_at : Z;
  updated_at : Z
}.

(** The content of an uploaded file. *)
Abbreviation bytes := (list Byte.byte).

(** The files on disk, each under the path it resolves to.  Reading
    ([fs !! p]) and writing ([<[p := data]> fs]) take any location and go
    to the file it names, so [uploads/./a.png] and [uploads/a.png] read and
    write the same file. *)
Record FileSystem : Type := { files : gmap string bytes }.

#[global] Instance fs_lookup : Lookup string bytes FileSystem :=
  fun p fs => files fs !! PyPath.resolve p.

#[global] Instance fs_insert : Insert string bytes FileSystem :=
  fun p data fs => {| files := <[PyPath.resolve p := data]> (files fs) |}.

#[global] Instance fs_empty : Empty FileSystem := {| files := ∅ |}.

#[global] Instance fs_singleton : SingletonM string bytes FileSystem :=
  fun p data => <[p := data]> ∅.

(** What a request did to the outside, in the order it did it. *)
Inductive Event : Type :=
| BlobTruncated (p : string)               (* [open(p, "wb")] returned *)
| BlobWritten (p : string) (data : bytes)  (* the copy finished and the file was closed *)
| InsertAttempted (p : string) (h : Z)     (* [db.commit()] sent the INSERT *)
| RowCommitted (r : Klasifikasi).          (* the transaction committed *)

(** The state the handlers act on: the files on disk, the table, the
    table's AUTO_INCREMENT counter, and the trace of effects so far. *)
Record World : Type := {
  blobs : FileSystem;
  rows : list Klasifikasi;
  auto_increment : Z;
  trace : list Event
}.

(** A fresh database and any upload directory. *)
Definition init_world (dir : FileSystem) : World :=
  {| blobs := dir; rows := []; auto_increment := 1; trace := [] |}.

(** How the file write of one upload goes: it succeeds, [open] raises,
    or the copy raises after [written] bytes reached the file. *)
Inductive BlobFault : Type :=
| BlobOk
| OpenFails
| CopyFails (written : nat).

(** How the commit and the refresh of one upload go: both succeed; or the
    commit raises and the transaction is rolled back (InnoDB may or may not
    have consumed the AUTO_INCREMENT value by then); or the commit succeeds
    and the refresh after it raises. *)
Inductive CommitFault : Type :=
| CommitOk
| CommitFails (id_consumed : bool)
| RefreshFails.

(** The part of an upload request the handler does not decide: the
    outcomes above and the database clock. *)
Record Env : Type := {
  blob_fault : BlobFault;
  commit_fault : CommitFault;
  db_now : Z
}.

Definition no_fault (now : Z) : Env :=
  {| blob_fault := BlobOk; commit_fault := CommitOk; db_now := now |}.

(** ** Exceptions and the handler monad *)

Inductive PyError : Type :=
| OSError
| SQLAlchemyError
| ProgrammingError
| IndexError
| ZeroDivisionError.

(** The [detail] of an [HTTPException]. *)
Inductive Detail : Type :=
| FileTypeTidakDidukung   (* "File type tidak didukung. Gunakan: ..." *)
| NilaiHasilHarus01       (* "Nilai hasil harus 0 (Sakit) atau 1 (Sehat)" *)
| DataTidakDitemukan      (* "Data tidak ditemukan" *)
| HasilHarus01            (* "Hasil harus 0 atau 1" *)
| ErrorDetail (e : PyError). (* f"Error: {str(e)}" *)

Inductive Exn : Type :=
| HTTPException (status_code : Z) (detail : Detail)
| Uncaught (e : PyError).

Inductive Result (A : Type) : Type :=
| Ret (a : A)
| Raise (e : Exn).
Arguments Ret {A} a.
Arguments Raise {A} e.

(** A handler body: it reads and changes the world and returns or raises. *)
Definition M (A : Type) : Type := World -> Result A * World.

Definition ret {A} (a : A) : M A := fun w => (Ret a, w).

Definition raise {A} (e : Exn) : M A := fun w => (Raise e, w).

Definition bind {A B} (m : M A) (k : A -> M B) : M B :=
  fun w =>
    match m w with
    | (Ret a, w') => k a w'
    | (Raise e, w') => (Raise e, w')
    end.

(** [try: body except ...: handler] *)
Definition try_except {A} (body : M A) (handler : Exn -> M A) : M A :=
  fun w =>
    match body w with
    | (Ret a, w') => (Ret a, w')
    | (Raise e, w') => handler e w'
    end.

Definition get_world : M World := fun w => (Ret w, w).

Definition put_world (w' : World) : M unit := fun _ => (Ret tt, w').

Definition emit (ev : Event) : M unit :=
  fun w => (Ret tt, {| blobs := blobs w; rows := rows w;
                       auto_increment := auto_increment w;
                       trace := trace w ++ [ev] |}).

#[global] Instance M_ret : MRet M := @ret.
#[global] Instance M_bind : MBind M := fun A B k m => bind m k.

(** ** The blob store: [open(p, "wb")] and [shutil.copyfileobj] *)

Definition set_blob (p : string) (data : bytes) : M unit :=
  fun w => (Ret tt, {| blobs := <[p := data]> (blobs w); rows := rows w;
                       auto_increment := auto_increment w;
                       trace := trace w |}).

(** [with open(p, "wb") as buffer: shutil.copyfileobj(src, buffer)].
    Opening creates the file or empties the one that is there; a copy that
    raises leaves the bytes written so far. *)
Definition write_blob (p : string) (data : bytes) (f : BlobFault) : M unit :=
  match f with
  | OpenFails => raise (Uncaught OSError)
  | CopyFails n =>
      set_blob p [];;
      emit (BlobTruncated p);;
      set_blob p (take n data);;
      raise (Uncaught OSError)
  | BlobOk =>
      set_blob p [];;
      emit (BlobTruncated p);;
      set_blob p data;;
      emit (BlobWritten p data)
  end.

(** ** The record store: the session's insert and the query builder *)

(** [db.add(Klasifikasi(path=p, hasil=h)); db.commit(); db.refresh(...)]:
    the INSERT takes the next AUTO_INCREMENT value as [id] and the server
    clock for both timestamps, and the refresh reads the row back.  A
    commit that raises (a lost connection, a path longer than the column's
    255 characters, ...) leaves the table as it was; a refresh that raises
    comes after the row is committed. *)
Definition add_commit_refresh (p : string) (h : Z) (env : Env) : M Klasifikasi :=
  emit (InsertAttempted p h);;
  w ← get_world;
  match commit_fault env with
  | CommitFails consumed =>
      put_world {| blobs := blobs w; rows := rows w;
                   auto_increment :=
                     if consumed then auto_increment w + 1 else auto_increment w;
                   trace := trace w |};;
      raise (Uncaught SQLAlchemyError)
  | CommitOk =>
      let new_data := {| id := auto_increment w; path := p; hasil := h;
                         created_at := db_now env; updated_at := db_now env |} in
      put_world {| blobs := blobs w; rows := rows w ++ [new_data];
                   auto_increment := auto_increment w + 1;
                   trace := trace w |};;
      emit (RowCommitted new_data);;
      ret new_data
  | RefreshFails =>
      let new_data := {| id := auto_increment w; path := p; hasil := h;
                         created_at := db_now env; updated_at := db_now env |} in
      put_world {| blobs := blobs w; rows := rows w ++ [new_data];
                   auto_increment := auto_increment w + 1;
                   trace := trace w |};;
      emit (RowCommitted new_data);;
      raise (Uncaught SQLAlchemyError)
  end.

(** [ORDER BY id DESC] *)
Definition id_desc (a b : Klasifikasi) : Prop := id b <= id a.

#[global] Instance id_desc_dec a b : Decision (id_desc a b) := Z_le_dec (id b) (id a).

Definition order_by_id_desc (l : list Klasifikasi) : list Klasifikasi :=
  merge_sort id_desc l.

(** [db.query(Klasifikasi)] with the clauses added to it so far. *)
Record Query : Type := {
  q_where : Klasifikasi -> bool;
  q_order_desc : bool;
  q_offset : option Z;
  q_limit : option Z
}.

Definition query : Query :=
  {| q_where := fun _ => true; q_order_desc := false;
     q_offset := None; q_limit := None |}.

Definition filter_by (f : Klasifikasi -> bool) (q : Query) : Query :=
  {| q_where := fun r => q_where q r && f r; q_order_desc := q_order_desc q;
     q_offset := q_offset q; q_limit := q_limit q |}.

Definition order_by_desc (q : Query) : Query :=
  {| q_where := q_where q; q_order_desc := true;
     q_offset := q_offset q; q_limit := q_limit q |}.

Definition offset (n : Z) (q : Query) : Query :=
  {| q_where := q_where q; q_order_desc := q_order_desc q;
     q_offset := Some n; q_limit := q_limit q |}.

Definition limit (n : Z) (q : Query) : Query :=
  {| q_where := q_where q; q_order_desc := q_order_desc q;
     q_offset := q_offset q; q_limit := Some n |}.

(** The rows a SELECT built from [q] yields on [table]:
    WHERE, then ORDER BY, then OFFSET, then LIMIT. *)
Definition select (q : Query) (table : list Klasifikasi) : list Klasifikasi :=
  let l := List.filter (q_where q) table in
  let l := if q_order_desc q then order_by_id_desc l else l in
  let l := match q_offset q with Some n => drop (Z.to_nat n) l | None => l end in
  match q_limit q with Some n => take (Z.to_nat n) l | None => l end.

Definition negative (o : option Z) : bool :=
  match o with Some n => n <? 0 | None => false end.

(** Running a statement: MySQL refuses a negative OFFSET or LIMIT, and the
    driver raises. *)
Definition execute (q : Query) : M (list Klasifikasi) :=
  if negative (q_offset q) || negative (q_limit q)
  then raise (Uncaught ProgrammingError)
  else w ← get_world; ret (select q (rows w)).

(** [.all()], [.first()] and [.count()] *)
Definition all (q : Query) : M (list Klasifikasi) := execute q.

Definition first (q : Query) : M (option Klasifikasi) :=
  l ← execute (limit 1 q); ret (head l).

Definition count (q : Query) : M Z :=
  l ← execute q; ret (Z.of_nat (length l)).

(** ** Responses *)

(** The dictionary every handler builds from a row. *)
Module Dict.
Record t : Type := {
  id : Z;
  path : string;
  hasil : string;
  created_at : Z;
  updated_at : Z
}.
End Dict.

(** ["Sehat" if r.hasil == 1 else "Sakit"] *)
Definition label (h : Z) : string := if h =? 1 then "Sehat" else "Sakit".

Definition to_dict (r : Klasifikasi) : Dict.t :=
  {| Dict.id := id r; Dict.path := path r; Dict.hasil := label (hasil r);
     Dict.created_at := created_at r; Dict.updated_at := updated_at r |}.

(** The ["data"] of [GET /statistik]. *)
Record Statistik : Type := {
  total_data : Z;
  status_sehat : Z;
  status_sakit : Z;
  persentase_sehat : PyNum.Num;
  persentase_sakit : PyNum.Num
}.

(** The JSON body of a response, one shape per endpoint; the constant
    fields ["status": "success"] and ["message"] are left out. *)
Inductive Body : Type :=
| Disimpan (data : Dict.t)                               (* POST /upload *)
| Semua (total : Z) (data : list Dict.t)                 (* GET /klasifikasi *)
| Satu (data : Dict.t)                                   (* GET /klasifikasi/{id} *)
| PerStatus (filter : string) (total : Z) (data : list Dict.t)
| Statistics (data : Statistik)                          (* GET /statistik *)
| ErrorBody (detail : Detail)                            (* an HTTPException *)
| InternalServerError.                                   (* an uncaught exception *)

Record Response : Type := {
  status_code : Z;
  content : Body
}.

(** What the framework makes of a handler: a returned pair is the answer,
    an [HTTPException] becomes its status and detail, anything else is
    answered 500. *)
Definition respond (handler : M (Z * Body)) (w : World) : Response * World :=
  match handler w with
  | (Ret (code, b), w') => ({| status_code := code; content := b |}, w')
  | (Raise (HTTPException code d), w') =>
      ({| status_code := code; content := ErrorBody d |}, w')
  | (Raise (Uncaught _), w') =>
      ({| status_code := 500; content := InternalServerError |}, w')
  end.

(** ** The handlers *)

Definition UPLOAD_DIR : string := "uploads".

Definition allowed_extensions : gset string := {[ "jpg"; "jpeg"; "png"; "bmp" ]}.

(** [{0, 1}] as the handlers test it: [hasil not in [0, 1]]. *)
Definition in_0_1 (h : Z) : bool := (h =? 0) || (h =? 1).

Record UploadFile : Type := {
  filename : string;
  file : bytes
}.

(** [file.filename.split(".")[-1].lower()] *)
Definition file_extension (name : string) : M string :=
  match PyStr.index_last (PyStr.split "." name) with
  | Some ext => mret (PyStr.lower ext)
  | None => raise (Uncaught IndexError)
  end.

(** [f"{UPLOAD_DIR}/{file.filename}"] *)
Definition file_location (name : string) : string :=
  UPLOAD_DIR +:+ "/" +:+ name.

(** [POST /upload] *)
Definition upload_data (f : UploadFile) (h : Z) (env : Env) : M (Z * Body) :=
  try_except
    (ext ← file_extension (filename f);
     (if bool_decide (ext ∈ allowed_extensions) then mret tt
      else raise (HTTPException 400 FileTypeTidakDidukung));;
     (if in_0_1 h then mret tt
      else raise (HTTPException 400 NilaiHasilHarus01));;
     write_blob (file_location (filename f)) (file f) (blob_fault env);;
     new_data ← add_commit_refresh (file_location (filename f)) h env;
     mret (201, Disimpan (to_dict new_data)))
    (fun e =>
       match e with
       | HTTPException _ _ => raise e
       | Uncaught err => raise (HTTPException 500 (ErrorDetail err))
       end).

(** [GET /klasifikasi] *)
Definition get_all_data (skip lim : Z) : M (Z * Body) :=
  records ← all (limit lim (offset skip (order_by_desc query)));
  total ← count query;
  mret (200, Semua total (map to_dict records)).

(** [GET /klasifikasi/{id}] *)
Definition get_data_by_id (i : Z) : M (Z * Body) :=
  record ← first (filter_by (fun r => id r =? i) query);
  match record with
  | None => raise (HTTPException 404 DataTidakDitemukan)
  | Some r => mret (200, Satu (to_dict r))
  end.

(** [GET /klasifikasi/status/{hasil}] *)
Definition get_by_status (h : Z) : M (Z * Body) :=
  (if in_0_1 h then mret tt else raise (HTTPException 400 HasilHarus01));;
  records ← all (order_by_desc (filter_by (fun r => hasil r =? h) query));
  let status_label := label h in
  let result := map to_dict records in
  mret (200, PerStatus ("Status " +:+ status_label) (Z.of_nat (length result)) result).

(** [a / b] on two [int]s *)
Definition truediv (a b : Z) : M float :=
  if b =? 0 then raise (Uncaught ZeroDivisionError)
  else mret (PyNum.int_truediv a b).

(** [round((n / total * 100), 2) if total > 0 else 0] *)
Definition persentase (n total : Z) : M PyNum.Num :=
  if 0 <? total
  then q ← truediv n total;
       mret (PyNum.NFloat (PyNum.round (PyNum.float_mul_int q 100) 2))
  else mret (PyNum.NInt 0).

(** [GET /statistik] *)
Definition get_statistics : M (Z * Body) :=
  total ← count query;
  sehat ← count (filter_by (fun r => hasil r =? 1) query);
  sakit ← count (filter_by (fun r => hasil r =? 0) query);
  p_sehat ← persentase sehat total;
  p_sakit ← persentase sakit total;
  mret (200, Statistics {| total_data := total; status_sehat := sehat;
                           status_sakit := sakit;
                           persentase_sehat := p_sehat;
                           persentase_sakit := p_sakit |}).

(** The requests a client can send. *)
Inductive Request : Type :=
| PostUpload (f : UploadFile) (h : Z) (env : Env)
| GetKlasifikasi (skip lim : option Z)   (* the query string may leave them out *)
| GetKlasifikasiId (i : Z)
| GetKlasifikasiStatus (h : Z)
| GetStatistik.

Definition handle (rq : Request) : World -> Response * World :=
  match rq with
  | PostUpload f h env => respond (upload_data f h env)
  | GetKlasifikasi skip lim =>
      respond (get_all_data (default 0 skip) (default 100 lim))
  | GetKlasifikasiId i => respond (get_data_by_id i)
  | GetKlasifikasiStatus h => respond (get_by_status h)
  | GetStatistik => respond get_statistics
  end.

(** The world after a sequence of requests, oldest first. *)
Definition run (rqs : list Request) (w : World) : World :=
  fold_left (fun w rq => snd (handle rq w)) rqs w.

(** ** The extension of a filename *)

(** The suffix after the last [sep] of [s], as the specification words it;
    the whole of [s] when [sep] does not occur in it. *)
Fixpoint after_last (sep : ascii) (s : string) : string :=
  match s with
  | EmptyString => EmptyString
  | String c s' =>
      if PyStr.contains sep s' then after_last sep s'
      else if Ascii.eqb c sep then s' else s
  end.

(** Two strings are the same up to the case of their ASCII letters. *)
Definition same_ignoring_case (a b : string) : Prop :=
  PyStr.lower a = PyStr.lower b.

(** The extension of [name] is one of [allowed_extensions], compared
    case-insensitively. *)
Definition extension_allowed (name : string) : Prop :=
  ∃ a, a ∈ allowed_extensions ∧ same_ignoring_case (after_last "." name) a.

(** The label is exactly [0] or [1]. *)
Definition label_valid (h : Z) : Prop := h = 0 ∨ h = 1.

Definition answer (code : Z) (b : Body) : Response :=
  {| status_code := code; content := b |}.

(** The row an accepted upload inserts. *)
Definition new_row (w : World) (name : string) (h : Z) (env : Env) : Klasifikasi :=
  {| id := auto_increment w; path := file_location name; hasil := h;
     created_at := db_now env; updated_at := db_now env |}.

Ltac run_handler :=
  unfold handle, respond, upload_data, get_all_data, get_data_by_id,
    get_by_status, get_statistics, persentase, truediv, try_except,
    file_extension, write_blob, add_commit_refresh, all, first, count,
    execute, set_blob, emit, get_world, put_world, raise,
    mbind, mret, M_bind, M_ret, bind, ret;
  cbn beta iota.

(** ** Properties of the store *)

(** The table's PRIMARY KEY AUTO_INCREMENT column: the ids in the table are
    pairwise different and below the counter. *)
Definition ids_unique (w : World) : Prop := NoDup (map id (rows w)).

Definition ids_below_counter (w : World) : Prop :=
  Forall (fun r => id r < auto_increment w) (rows w).

Definition store_ok (w : World) : Prop := ids_unique w ∧ ids_below_counter w.

(** Every row's label is [0] or [1]. *)
Definition labels_valid (w : World) : Prop :=
  Forall (fun r => label_valid (hasil r)) (rows w).

(** Every row's [path] names a file of the upload directory. *)
Definition blobs_present (w : World) : Prop :=
  Forall (fun r => is_Some (blobs w !! path r)) (rows w).


(** The four read operations. *)
Definition is_read (rq : Request) : bool :=
  match rq with
  | PostUpload _ _ _ => false
  | _ => true
  end.

(** The number of rows labelled [h]. *)
Definition count_label (h : Z) (table : list Klasifikasi) : Z :=
  Z.of_nat (length (List.filter (fun r => hasil r =? h) table)).

(** [round(n / total * 100, 2)], and the integer [0] when [total] is zero. *)
Definition percentage (n total : Z) : PyNum.Num :=
  if total =? 0 then PyNum.NInt 0
  else PyNum.NFloat (PyNum.round (PyNum.float_mul_int (PyNum.int_truediv n total) 100) 2).

(** An upload commits a row: its input is valid, its file is written, and
    its commit goes through (the refresh after it may still raise). *)
Definition commits_a_row (f : UploadFile) (h : Z) (env : Env) : Prop :=
  extension_allowed (filename f) ∧ label_valid h ∧ blob_fault env = BlobOk ∧
  (commit_fault env = CommitOk ∨ commit_fault env = RefreshFails).

(** The same, as a test: the handler's two checks and the two outcomes. *)
Definition commits (f : UploadFile) (h : Z) (env : Env) : bool :=
  bool_decide (PyStr.lower (after_last "." (filename f)) ∈ allowed_extensions)
  && in_0_1 h
  && match blob_fault env with BlobOk => true | _ => false end
  && match commit_fault env with CommitFails _ => false | _ => true end.

(** The labels of the uploads of [rqs] that commit a row, oldest first. *)
Fixpoint committed_labels (rqs : list Request) : list Z :=
  match rqs with
  | [] => []
  | rq :: rqs' =>
      match rq with
      | PostUpload f h env => if commits f h env then [h] else []
      | _ => []
      end ++ committed_labels rqs'
  end.

(** ** Further properties of requests and stores *)

(** The file write, the commit and the refresh of an upload all go
    through. *)
Definition fault_free (env : Env) : Prop :=
  blob_fault env = BlobOk ∧ commit_fault env = CommitOk.

(** The status code an upload is answered with. *)
Definition upload_status (f : UploadFile) (h : Z) (env : Env) (w : World) : Z :=
  status_code (fst (handle (PostUpload f h env) w)).

(** The rows stand in the table in the order of their ids. *)
Definition ids_ascending (w : World) : Prop :=
  StronglySorted (fun a b => id a < id b) (rows w).

(** What the upload handler leaves in a row besides its id: a location
    made from a filename that passed the extension check, and two equal
    timestamps. *)
Definition row_from_upload (r : Klasifikasi) : Prop :=
  (∃ name, path r = file_location name ∧ extension_allowed name) ∧
  created_at r = updated_at r.

Definition rows_from_uploads (w : World) : Prop := Forall row_from_upload (rows w).

(** No upload of [rqs] has a commit that raises. *)
Definition commits_succeed (rqs : list Request) : Prop :=
  Forall (fun rq => match rq with
                    | PostUpload _ _ env => ∀ c, commit_fault env ≠ CommitFails c
                    | _ => True
                    end) rqs.

#[global] Instance id_desc_transitive : Transitive id_desc.
Proof. unfold id_desc. intros a b c. lia. Qed.

#[global] Instance id_desc_total : Total id_desc.
Proof. unfold id_desc. intros a b. lia. Qed.


(** ** The model on concrete inputs *)

Example split_two_dots : PyStr.split "." "a.tar.PNG" = ["a"; "tar"; "PNG"].
Proof. reflexivity. Qed.

Example split_trailing_dot : PyStr.split "." "a." = ["a"; ""].
Proof. reflexivity. Qed.

Example split_no_dot : PyStr.split "." "png" = ["png"].
Proof. reflexivity. Qed.

Example lower_mixed : PyStr.lower "JpEg_1" = "jpeg_1".
Proof. reflexivity. Qed.

#[local] Set Warnings "-inexact-float".

Example truediv_third : PyNum.int_truediv 1 3 = 0.33333333333333331%float.
Proof. reflexivity. Qed.

Example round_third :
  PyNum.round (PyNum.float_mul_int (PyNum.int_truediv 1 3) 100) 2 = 33.33%float.
Proof. reflexivity. Qed.

Example round_two_thirds :
  PyNum.round (PyNum.float_mul_int (PyNum.int_truediv 2 3) 100) 2 = 66.67%float.
Proof. reflexivity. Qed.

Example round_tie_even :
  PyNum.round (PyNum.float_mul_int (PyNum.int_truediv 1 800) 100) 2 = 0.12%float.
Proof. reflexivity. Qed.

Example round_full :
  PyNum.round (PyNum.float_mul_int (PyNum.int_truediv 7 7) 100) 2 = 100%float.
Proof. reflexivity. Qed.

Example statistics_two_of_three :
  let up n h := PostUpload {| filename := "daun.PNG"; file := [Byte.x89] |} h (no_fault n) in
  fst (handle GetStatistik (run [up 1 1; up 2 0; up 3 1] (init_world ∅)))
  = {| status_code := 200;
       content := Statistics {| total_data := 3; status_sehat := 2; status_sakit := 1;
                                persentase_sehat := PyNum.NFloat 66.67%float;
                                persentase_sakit := PyNum.NFloat 33.33%float |} |}.
Proof. reflexivity. Qed.

Example statistics_of_nothing :
  fst (handle GetStatistik (init_world ∅))
  = {| status_code := 200;
       content := Statistics {| total_data := 0; status_sehat := 0; status_sakit := 0;
                                persentase_sehat := PyNum.NInt 0;
                                persentase_sakit := PyNum.NInt 0 |} |}.
Proof. reflexivity. Qed.

Example upload_same_name_twice :
  let up n h := PostUpload {| filename := "daun.jpg"; file := [Byte.xff; Byte.xd8] |} h (no_fault n) in
  map to_dict (rows (run [up 1 1; up 2 0] (init_world ∅)))
  = [ {| Dict.id := 1; Dict.path := "uploads/daun.jpg"; Dict.hasil := "Sehat";
         Dict.created_at := 1; Dict.updated_at := 1 |};
      {| Dict.id := 2; Dict.path := "uploads/daun.jpg"; Dict.hasil := "Sakit";
         Dict.created_at := 2; Dict.updated_at := 2 |} ].
Proof. reflexivity. Qed.

Example copy_fails_midway :
  handle (PostUpload {| filename := "daun.bmp"; file := [Byte.x42; Byte.x4d; Byte.x00] |} 1
            {| blob_fault := CopyFails 2; commit_fault := CommitOk; db_now := 7 |})
    (init_world ∅)
  = ({| status_code := 500; content := ErrorBody (ErrorDetail OSError) |},
     {| blobs := {[ "uploads/daun.bmp" := [Byte.x42; Byte.x4d] ]}; rows := [];
        auto_increment := 1; trace := [BlobTruncated "uploads/daun.bmp"] |}).
Proof. vm_compute. reflexivity. Qed.

Example refresh_fails_after_commit :
  handle (PostUpload {| filename := "daun.png"; file := [Byte.x89] |} 0
            {| blob_fault := BlobOk; commit_fault := RefreshFails; db_now := 7 |})
    (init_world ∅)
  = ({| status_code := 500; content := ErrorBody (ErrorDetail SQLAlchemyError) |},
     let r := {| id := 1; path := "uploads/daun.png"; hasil := 0;
                 created_at := 7; updated_at := 7 |} in
     {| blobs := {[ "uploads/daun.png" := [Byte.x89] ]}; rows := [r];
        auto_increment := 2;
        trace := [BlobTruncated "uploads/daun.png";
                  BlobWritten "uploads/daun.png" [Byte.x89];
                  InsertAttempted "uploads/daun.png" 0;
                  RowCommitted r] |}).
Proof. vm_compute. reflexivity. Qed.

Example resolve_dot_and_parent :
  PyPath.resolve "uploads/./a.png" = "uploads/a.png" ∧
  PyPath.resolve "uploads//b/../a.png" = "uploads/a.png" ∧
  PyPath.resolve "uploads/../a.png" = "a.png" ∧
  PyPath.resolve "uploads/../../a.png" = "../a.png".
Proof. repeat split; reflexivity. Qed.

Example upload_through_another_name :
  let up name data n := PostUpload {| filename := name; file := data |} 1 (no_fault n) in
  let w := run [up "a.png" [Byte.x01] 1; up "./a.png" [Byte.x02] 2] (init_world ∅) in
  map path (rows w) = ["uploads/a.png"; "uploads/./a.png"] ∧
  map (fun r => blobs w !! path r) (rows w) = [Some [Byte.x02]; Some [Byte.x02]].
Proof. split; vm_compute; reflexivity. Qed.

(** ** The extension test *)

Lemma after_last_no_sep sep s :
  PyStr.contains sep s = false → after_last sep s = s.
Proof.
  destruct s as [|c s']; simpl; [done|].
  intros H. apply orb_false_iff in H as [Hc Hs].
  by rewrite Hs, Hc.
Qed.

Lemma after_last_split sep a b :
  PyStr.contains sep b = false → after_last sep (a +:+ String sep b) = b.
Proof.
  intros Hb. induction a as [|c a IH]; simpl.
  - by rewrite Hb, Ascii.eqb_refl.
  - assert (PyStr.contains sep (a +:+ String sep b) = true) as ->; [|done].
    clear IH. induction a as [|c' a IH]; simpl.
    + by rewrite Ascii.eqb_refl.
    + rewrite IH. apply orb_true_r.
Qed.

Lemma split_no_sep sep s :
  PyStr.contains sep s = false → PyStr.split sep s = [s].
Proof.
  induction s as [|c s IH]; simpl; [done|].
  intros H. apply orb_false_iff in H as [Hc Hs].
  by rewrite Hc, (IH Hs).
Qed.

Lemma split_with_sep sep s :
  PyStr.contains sep s = true → ∃ p q qs, PyStr.split sep s = p :: q :: qs.
Proof.
  induction s as [|c s IH]; simpl; [done|].
  destruct (Ascii.eqb c sep) eqn:Hc; simpl.
  - intros _. destruct (PyStr.contains sep s) eqn:Hs.
    + destruct (IH eq_refl) as (p & q & qs & ->). eauto.
    + rewrite (split_no_sep _ _ Hs). eauto.
  - intros Hs. destruct (IH Hs) as (p & q & qs & ->). eauto.
Qed.

(** The code's [split(".")[-1]] is the specification's suffix after the
    last dot; in particular the index never raises. *)
Lemma index_last_split sep s :
  PyStr.index_last (PyStr.split sep s) = Some (after_last sep s).
Proof.
  unfold PyStr.index_last. induction s as [|c s IH]; [done|].
  cbn [PyStr.split after_last].
  destruct (PyStr.contains sep s) eqn:Hs.
  - destruct (split_with_sep _ _ Hs) as (p & q & qs & Hsplit).
    rewrite Hsplit in *. by destruct (Ascii.eqb c sep).
  - rewrite (split_no_sep _ _ Hs). by destruct (Ascii.eqb c sep).
Qed.

Lemma lower_idempotent s : PyStr.lower (PyStr.lower s) = PyStr.lower s.
Proof.
  induction s as [|c s IH]; simpl; [done|]. f_equal; [|done].
  unfold PyStr.lower_ascii.
  destruct (PyStr.is_upper c) eqn:Hc; [|by rewrite Hc].
  assert (PyStr.is_upper (ascii_of_N (N_of_ascii c + 32)) = false) as ->; [|done].
  revert Hc. unfold PyStr.is_upper.
  destruct c as [[] [] [] [] [] [] [] []]; vm_compute; congruence.
Qed.

Lemma allowed_extensions_lower a :
  a ∈ allowed_extensions → PyStr.lower a = a.
Proof.
  unfold allowed_extensions. rewrite !elem_of_union, !elem_of_singleton.
  intros [[[-> | ->] | ->] | ->]; reflexivity.
Qed.

(** Comparing case-insensitively with the allowed set is the code's test
    on the lowered extension. *)
Lemma extension_allowed_iff name :
  extension_allowed name ↔
  PyStr.lower (after_last "." name) ∈ allowed_extensions.
Proof.
  unfold extension_allowed, same_ignoring_case. split.
  - intros (a & Ha & ->). by rewrite (allowed_extensions_lower a Ha).
  - intros H. exists (PyStr.lower (after_last "." name)).
    split; [done|]. by rewrite lower_idempotent.
Qed.

Lemma in_0_1_true h : in_0_1 h = true ↔ label_valid h.
Proof. unfold in_0_1, label_valid. lia. Qed.

Lemma in_0_1_false h : in_0_1 h = false ↔ ¬ label_valid h.
Proof. unfold in_0_1, label_valid. lia. Qed.

(** ** Reading and writing files *)

Lemma fs_lookup_insert_same (fs : FileSystem) p q data :
  PyPath.resolve q = PyPath.resolve p → <[p := data]> fs !! q = Some data.
Proof.
  intros Hq. unfold lookup, insert, fs_lookup, fs_insert. cbn.
  rewrite Hq. apply lookup_insert_eq.
Qed.

Lemma fs_lookup_insert_eq (fs : FileSystem) p data : <[p := data]> fs !! p = Some data.
Proof. by apply fs_lookup_insert_same. Qed.


Lemma fs_insert_insert_eq (fs : FileSystem) p data data' :
  <[p := data]> (<[p := data']> fs) = <[p := data]> fs.
Proof.
  unfold insert, fs_insert. cbn. f_equal. apply insert_insert_eq.
Qed.

Lemma fs_lookup_insert_is_Some (fs : FileSystem) p q data :
  is_Some (fs !! q) → is_Some (<[p := data]> fs !! q).
Proof.
  unfold lookup, insert, fs_lookup, fs_insert. cbn.
  rewrite lookup_insert. case_decide; eauto.
Qed.

(** ** What an upload does, case by case *)

Section Upload.

Variables (f : UploadFile) (h : Z) (env : Env) (w : World).

Abbreviation loc := (file_location (filename f)).

Lemma upload_bad_extension :
  ¬ extension_allowed (filename f) →
  handle (PostUpload f h env) w = (answer 400 (ErrorBody FileTypeTidakDidukung), w).
Proof.
  rewrite extension_allowed_iff. intros Hext. run_handler.
  rewrite index_last_split. by rewrite bool_decide_eq_false_2.
Qed.

Lemma upload_bad_label :
  extension_allowed (filename f) → ¬ label_valid h →
  handle (PostUpload f h env) w = (answer 400 (ErrorBody NilaiHasilHarus01), w).
Proof.
  rewrite extension_allowed_iff. intros Hext Hlab%in_0_1_false. run_handler.
  rewrite index_last_split. rewrite bool_decide_eq_true_2 by done.
  by rewrite Hlab.
Qed.

Hypothesis ext_ok : extension_allowed (filename f).
Hypothesis label_ok : label_valid h.

Lemma upload_open_fails :
  blob_fault env = OpenFails →
  handle (PostUpload f h env) w = (answer 500 (ErrorBody (ErrorDetail OSError)), w).
Proof.
  apply extension_allowed_iff in ext_ok. apply in_0_1_true in label_ok.
  intros Hb. run_handler.
  rewrite index_last_split. rewrite bool_decide_eq_true_2 by done.
  by rewrite label_ok, Hb.
Qed.

Lemma upload_copy_fails n :
  blob_fault env = CopyFails n →
  handle (PostUpload f h env) w =
    (answer 500 (ErrorBody (ErrorDetail OSError)),
     {| blobs := <[loc := take n (file f)]> (blobs w);
        rows := rows w;
        auto_increment := auto_increment w;
        trace := trace w ++ [BlobTruncated loc] |}).
Proof.
  apply extension_allowed_iff in ext_ok. apply in_0_1_true in label_ok.
  intros Hb. run_handler.
  rewrite index_last_split. rewrite bool_decide_eq_true_2 by done.
  rewrite label_ok, Hb. cbn. by rewrite fs_insert_insert_eq.
Qed.

Lemma upload_commit_fails consumed :
  blob_fault env = BlobOk → commit_fault env = CommitFails consumed →
  handle (PostUpload f h env) w =
    (answer 500 (ErrorBody (ErrorDetail SQLAlchemyError)),
     {| blobs := <[loc := file f]> (blobs w);
        rows := rows w;
        auto_increment :=
          if consumed then auto_increment w + 1 else auto_increment w;
        trace := trace w ++ [BlobTruncated loc; BlobWritten loc (file f);
                             InsertAttempted loc h] |}).
Proof.
  apply extension_allowed_iff in ext_ok. apply in_0_1_true in label_ok.
  intros Hb Hc. run_handler.
  rewrite index_last_split. rewrite bool_decide_eq_true_2 by done.
  rewrite label_ok, Hb. cbn. rewrite Hc. cbn.
  by rewrite fs_insert_insert_eq, <- !app_assoc.
Qed.

Lemma upload_created :
  blob_fault env = BlobOk → commit_fault env = CommitOk →
  handle (PostUpload f h env) w =
    (answer 201 (Disimpan (to_dict (new_row w (filename f) h env))),
     {| blobs := <[loc := file f]> (blobs w);
        rows := rows w ++ [new_row w (filename f) h env];
        auto_increment := auto_increment w + 1;
        trace := trace w ++ [BlobTruncated loc; BlobWritten loc (file f);
                             InsertAttempted loc h;
                             RowCommitted (new_row w (filename f) h env)] |}).
Proof.
  apply extension_allowed_iff in ext_ok. apply in_0_1_true in label_ok.
  intros Hb Hc. run_handler.
  rewrite index_last_split. rewrite bool_decide_eq_true_2 by done.
  rewrite label_ok, Hb. cbn. rewrite Hc. cbn.
  by rewrite fs_insert_insert_eq, <- !app_assoc.
Qed.

Lemma upload_refresh_fails :
  blob_fault env = BlobOk → commit_fault env = RefreshFails →
  handle (PostUpload f h env) w =
    (answer 500 (ErrorBody (ErrorDetail SQLAlchemyError)),
     {| blobs := <[loc := file f]> (blobs w);
        rows := rows w ++ [new_row w (filename f) h env];
        auto_increment := auto_increment w + 1;
        trace := trace w ++ [BlobTruncated loc; BlobWritten loc (file f);
                             InsertAttempted loc h;
                             RowCommitted (new_row w (filename f) h env)] |}).
Proof.
  apply extension_allowed_iff in ext_ok. apply in_0_1_true in label_ok.
  intros Hb Hc. run_handler.
  rewrite index_last_split. rewrite bool_decide_eq_true_2 by done.
  rewrite label_ok, Hb. cbn. rewrite Hc. cbn.
  by rewrite fs_insert_insert_eq, <- !app_assoc.
Qed.

End Upload.

(** ** What the queries return *)

Lemma filter_all (l : list Klasifikasi) : List.filter (fun _ => true) l = l.
Proof. induction l as [|r l IH]; simpl; congruence. Qed.

Lemma order_by_id_desc_perm l : order_by_id_desc l ≡ₚ l.
Proof. apply merge_sort_Permutation. Qed.

Lemma order_by_id_desc_sorted l : StronglySorted id_desc (order_by_id_desc l).
Proof. apply (StronglySorted_merge_sort id_desc). Qed.

Lemma get_all_data_page skip lim w :
  0 <= skip → 0 <= lim →
  handle (GetKlasifikasi (Some skip) (Some lim)) w =
    (answer 200 (Semua (Z.of_nat (length (rows w)))
                   (map to_dict (take (Z.to_nat lim)
                                   (drop (Z.to_nat skip)
                                      (order_by_id_desc (rows w)))))), w).
Proof.
  intros Hs Hl. run_handler. cbn.
  assert ((skip <? 0) = false) as -> by lia.
  assert ((lim <? 0) = false) as -> by lia.
  cbn. unfold select. cbn. by rewrite filter_all.
Qed.

Lemma get_all_data_negative skip lim w :
  skip < 0 ∨ lim < 0 →
  handle (GetKlasifikasi (Some skip) (Some lim)) w = (answer 500 InternalServerError, w).
Proof.
  intros H. run_handler. cbn.
  assert ((skip <? 0) || (lim <? 0) = true) as -> by lia. done.
Qed.

Lemma get_data_by_id_head i w :
  handle (GetKlasifikasiId i) w =
    (match head (List.filter (fun r => id r =? i) (rows w)) with
     | Some r => answer 200 (Satu (to_dict r))
     | None => answer 404 (ErrorBody DataTidakDitemukan)
     end, w).
Proof.
  run_handler. cbn. unfold select. cbn.
  by destruct (List.filter (fun r => id r =? i) (rows w)).
Qed.

Lemma get_by_status_bad h w :
  ¬ label_valid h →
  handle (GetKlasifikasiStatus h) w = (answer 400 (ErrorBody HasilHarus01), w).
Proof. intros Hh%in_0_1_false. run_handler. by rewrite Hh. Qed.

Lemma get_by_status_rows h w :
  label_valid h →
  handle (GetKlasifikasiStatus h) w =
    (let records := order_by_id_desc (List.filter (fun r => hasil r =? h) (rows w)) in
     answer 200 (PerStatus ("Status " +:+ label h)
                   (Z.of_nat (length (map to_dict records)))
                   (map to_dict records)), w).
Proof. intros Hh%in_0_1_true. run_handler. by rewrite Hh. Qed.

Lemma get_statistics_counts w :
  handle GetStatistik w =
    (let total := Z.of_nat (length (rows w)) in
     answer 200 (Statistics
       {| total_data := total;
          status_sehat := count_label 1 (rows w);
          status_sakit := count_label 0 (rows w);
          persentase_sehat := percentage (count_label 1 (rows w)) total;
          persentase_sakit := percentage (count_label 0 (rows w)) total |}), w).
Proof.
  run_handler. cbn. unfold select, percentage, count_label. cbn.
  rewrite filter_all.
  destruct (rows w) as [|r l]; [done|].
  set (n := Z.of_nat (length (r :: l))).
  assert (0 < n) as Hn by (subst n; rewrite length_cons; lia).
  destruct (Z.ltb_spec 0 n); [|lia].
  destruct (Z.eqb_spec n 0); [lia|]. done.
Qed.

(** ** Reads leave the world alone; what an upload leaves behind *)

Lemma extension_allowed_or_not name :
  extension_allowed name ∨ ¬ extension_allowed name.
Proof.
  rewrite extension_allowed_iff.
  destruct (decide (PyStr.lower (after_last "." name) ∈ allowed_extensions)); auto.
Qed.

Lemma label_valid_or_not h : label_valid h ∨ ¬ label_valid h.
Proof. unfold label_valid. lia. Qed.

Lemma get_all_data_defaults skip lim w :
  handle (GetKlasifikasi skip lim) w =
  handle (GetKlasifikasi (Some (default 0 skip)) (Some (default 100 lim))) w.
Proof. reflexivity. Qed.

Lemma read_keeps_world rq w : is_read rq = true → snd (handle rq w) = w.
Proof.
  destruct rq as [f h env|skip lim|i|h|]; [done|..]; intros _.
  - rewrite get_all_data_defaults.
    destruct (Z_lt_le_dec (default 0 skip) 0);
      [by rewrite get_all_data_negative by auto|].
    destruct (Z_lt_le_dec (default 100 lim) 0);
      [by rewrite get_all_data_negative by auto|].
    by rewrite get_all_data_page.
  - by rewrite get_data_by_id_head.
  - destruct (label_valid_or_not h).
    + by rewrite get_by_status_rows.
    + by rewrite get_by_status_bad.
  - by rewrite get_statistics_counts.
Qed.

(** The world after any upload: either the table is as it was and at most
    the file at the upload's location changed, or the upload was valid and
    the table gained exactly the new row, whose file holds the content. *)
Lemma upload_leaves f h env w :
  let w' := snd (handle (PostUpload f h env) w) in
  (rows w' = rows w ∧ auto_increment w <= auto_increment w' ∧
   (blobs w' = blobs w ∨
    ∃ data, blobs w' = <[file_location (filename f) := data]> (blobs w)))
  ∨
  (label_valid h ∧
   rows w' = rows w ++ [new_row w (filename f) h env] ∧
   auto_increment w' = auto_increment w + 1 ∧
   blobs w' = <[file_location (filename f) := file f]> (blobs w)).
Proof.
  destruct (extension_allowed_or_not (filename f)) as [He|He];
    [|rewrite upload_bad_extension by done; left; cbn; auto with lia].
  destruct (label_valid_or_not h) as [Hl|Hl];
    [|rewrite upload_bad_label by done; left; cbn; auto with lia].
  destruct (blob_fault env) as [| |n] eqn:Hb.
  - destruct (commit_fault env) as [|c|] eqn:Hc.
    + rewrite upload_created by done. right. cbn. auto.
    + rewrite (upload_commit_fails _ _ _ _ He Hl c) by done. left. cbn.
      split; [done|]. split; [destruct c; lia|]. eauto.
    + rewrite upload_refresh_fails by done. right. cbn. auto.
  - rewrite upload_open_fails by done. left. cbn. auto with lia.
  - rewrite (upload_copy_fails _ _ _ _ He Hl n) by done. left. cbn.
    split; [done|]. split; [lia|]. eauto.
Qed.

Lemma handle_keeps_store_ok rq w : store_ok w → store_ok (snd (handle rq w)).
Proof.
  destruct rq as [f h env| | | |];
    try (by intros; rewrite read_keeps_world).
  intros [Hu Hb]. unfold store_ok, ids_unique, ids_below_counter in *.
  destruct (upload_leaves f h env w) as [(-> & Hc & _)|(_ & -> & -> & _)].
  - split; [done|]. eapply Forall_impl; [done|]. intros r Hr. cbv beta in *. lia.
  - split.
    + rewrite map_app. apply NoDup_app. split; [done|]. split.
      * intros i Hi Hi'. apply list_elem_of_singleton in Hi'. cbn in Hi'.
        apply list_elem_of_fmap in Hi as (r & -> & Hr).
        rewrite Forall_forall in Hb. specialize (Hb r Hr). lia.
      * apply NoDup_singleton.
    + apply Forall_app. split.
      * eapply Forall_impl; [done|]. intros r Hr. cbv beta in *. lia.
      * apply Forall_singleton. cbn. lia.
Qed.

Lemma handle_keeps_labels_valid rq w :
  labels_valid w → labels_valid (snd (handle rq w)).
Proof.
  destruct rq as [f h env| | | |];
    try (by intros; rewrite read_keeps_world).
  unfold labels_valid. intros Hw.
  destruct (upload_leaves f h env w) as [(-> & _)|(Hl & -> & _)]; [done|].
  apply Forall_app. split; [done|]. by apply Forall_singleton.
Qed.

Lemma handle_keeps_blobs_present rq w :
  blobs_present w → blobs_present (snd (handle rq w)).
Proof.
  destruct rq as [f h env| | | |];
    try (by intros; rewrite read_keeps_world).
  unfold blobs_present. intros Hw.
  assert (∀ data, Forall (fun r =>
            is_Some (<[file_location (filename f) := data]> (blobs w) !! path r))
            (rows w)) as Hins.
  { intros data. eapply Forall_impl; [done|]. cbn. intros r Hr.
    by apply fs_lookup_insert_is_Some. }
  destruct (upload_leaves f h env w)
    as [(-> & _ & [-> | [data ->]])|(_ & -> & _ & ->)]; [done|done|].
  apply Forall_app. split; [done|]. apply Forall_singleton. cbn.
  rewrite fs_lookup_insert_eq. eauto.
Qed.

Lemma run_snoc rqs rq w : run (rqs ++ [rq]) w = snd (handle rq (run rqs w)).
Proof. unfold run. by rewrite fold_left_app. Qed.

Lemma run_keeps_store_ok rqs w : store_ok w → store_ok (run rqs w).
Proof.
  revert w. induction rqs as [|rq rqs IH]; intros w Hw; [done|].
  cbn. by apply IH, handle_keeps_store_ok.
Qed.

Lemma run_keeps_labels_valid rqs w : labels_valid w → labels_valid (run rqs w).
Proof.
  revert w. induction rqs as [|rq rqs IH]; intros w Hw; [done|].
  cbn. by apply IH, handle_keeps_labels_valid.
Qed.

Lemma run_keeps_blobs_present rqs w : blobs_present w → blobs_present (run rqs w).
Proof.
  revert w. induction rqs as [|rq rqs IH]; intros w Hw; [done|].
  cbn. by apply IH, handle_keeps_blobs_present.
Qed.

Lemma run_reads rqs w : forallb is_read rqs = true → run rqs w = w.
Proof.
  revert w. induction rqs as [|rq rqs IH]; intros w; [done|]. cbn.
  intros [Hrq Hrqs]%andb_true_iff. rewrite read_keeps_world by done. by apply IH.
Qed.

Lemma init_world_store_ok dir : store_ok (init_world dir).
Proof. split; [apply NoDup_nil_2|apply Forall_nil_2]. Qed.

(** ** Looking a row up by its id *)

Lemma filter_id_above c (l : list Klasifikasi) :
  Forall (fun r => id r < c) l → List.filter (fun r => id r =? c) l = [].
Proof.
  induction 1 as [|r l Hr _ IH]; [done|]. cbn.
  destruct (Z.eqb_spec (id r) c); [lia|done].
Qed.

Lemma filter_id_absent i (l : list Klasifikasi) :
  (∀ r, r ∈ l → id r ≠ i) → List.filter (fun r => id r =? i) l = [].
Proof.
  induction l as [|x l IH]; [done|]. intros H. cbn.
  destruct (Z.eqb_spec (id x) i) as [Hx|_].
  - by destruct (H x (list_elem_of_here _ _)).
  - apply IH. intros r Hr. apply H. by apply list_elem_of_further.
Qed.

Lemma filter_id_unique (l : list Klasifikasi) r :
  NoDup (map id l) → r ∈ l → List.filter (fun x => id x =? id r) l = [r].
Proof.
  induction l as [|x l IH]; [by intros _ ?%not_elem_of_nil|].
  cbn [map]. intros [Hx Hl]%NoDup_cons Hr. cbn [List.filter].
  apply elem_of_cons in Hr as [->|Hr].
  - rewrite Z.eqb_refl. f_equal. apply filter_id_absent.
    intros r' Hr' Heq. apply Hx. rewrite <- Heq.
    apply list_elem_of_fmap. eauto.
  - destruct (Z.eqb_spec (id x) (id r)) as [Heq|_]; [|by apply IH].
    destruct Hx. rewrite Heq. apply list_elem_of_fmap. eauto.
Qed.

Lemma filter_id_some i (l : list Klasifikasi) r :
  head (List.filter (fun x => id x =? i) l) = Some r → r ∈ l ∧ id r = i.
Proof.
  intros H. assert (r ∈ List.filter (fun x => id x =? i) l) as Hr.
  { destruct (List.filter _ l); [done|]. injection H as ->. apply list_elem_of_here. }
  apply list_elem_of_In, filter_In in Hr as [Hr Hi].
  split; [by apply list_elem_of_In|lia].
Qed.

(** ** Counting by label *)

Lemma count_labels_add (l : list Klasifikasi) :
  Forall (fun r => label_valid (hasil r)) l →
  count_label 1 l + count_label 0 l = Z.of_nat (length l).
Proof.
  unfold count_label. induction 1 as [|r l Hr _ IH]; [done|].
  cbn [List.filter]. unfold label_valid in Hr.
  destruct (Z.eqb_spec (hasil r) 1), (Z.eqb_spec (hasil r) 0);
    rewrite ?length_cons; lia.
Qed.

(** ** A page of three rows *)

Lemma sorted_123 (l : list Z) :
  l ≡ₚ [1; 2; 3] → StronglySorted (fun a b => b <= a) l → l = [3; 2; 1].
Proof.
  intros Hp Hs.
  assert (length l = 3%nat) as Hlen by (by rewrite Hp).
  destruct l as [|a [|b [|c [|? ?]]]]; try done.
  assert (NoDup [a; b; c]) as Hnd by (rewrite Hp; by apply (bool_decide_unpack _)).
  assert (∀ x, x ∈ [a; b; c] → x = 1 ∨ x = 2 ∨ x = 3) as Hin.
  { intros x. rewrite Hp, !elem_of_cons, elem_of_nil. tauto. }
  pose proof (Hin a ltac:(rewrite !elem_of_cons; auto)).
  pose proof (Hin b ltac:(rewrite !elem_of_cons; auto)).
  pose proof (Hin c ltac:(rewrite !elem_of_cons; auto)).
  apply NoDup_cons in Hnd as [Hab Hnd]. apply NoDup_cons in Hnd as [Hbc _].
  rewrite !not_elem_of_cons in Hab, Hbc.
  apply StronglySorted_inv in Hs as [Hs Ha].
  apply StronglySorted_inv in Hs as [_ Hb].
  apply Forall_cons in Ha as [? Ha]. apply Forall_cons in Ha as [? _].
  apply Forall_cons in Hb as [? _].
  f_equal; [|f_equal; [|f_equal]]; lia.
Qed.

Lemma map_id_to_dict l : map Dict.id (map to_dict l) = map id l.
Proof. induction l as [|r l IH]; cbn; congruence. Qed.

Lemma order_by_id_desc_123 (l : list Klasifikasi) :
  map id l ≡ₚ [1; 2; 3] → map id (order_by_id_desc l) = [3; 2; 1].
Proof.
  intros Hp. apply sorted_123.
  - rewrite <- Hp. change (id <$> order_by_id_desc l ≡ₚ id <$> l).
    by rewrite order_by_id_desc_perm.
  - apply (StronglySorted_fmap id id_desc); [by intros x y|].
    apply order_by_id_desc_sorted.
Qed.

(** ** The table after a sequence of requests *)

Lemma commits_iff f h env : commits f h env = true ↔ commits_a_row f h env.
Proof.
  unfold commits, commits_a_row.
  rewrite !andb_true_iff, bool_decide_eq_true, <- extension_allowed_iff, in_0_1_true.
  destruct (blob_fault env), (commit_fault env); intuition congruence.
Qed.

Lemma upload_commits_or_not f h env w :
  (commits_a_row f h env ∧
   rows (snd (handle (PostUpload f h env) w)) = rows w ++ [new_row w (filename f) h env])
  ∨
  (¬ commits_a_row f h env ∧
   rows (snd (handle (PostUpload f h env) w)) = rows w).
Proof.
  unfold commits_a_row.
  destruct (extension_allowed_or_not (filename f)) as [He|He];
    [|rewrite upload_bad_extension by done; right; split; [tauto|done]].
  destruct (label_valid_or_not h) as [Hl|Hl];
    [|rewrite upload_bad_label by done; right; split; [tauto|done]].
  destruct (blob_fault env) as [| |n] eqn:Hb.
  - destruct (commit_fault env) as [|c|] eqn:Hc.
    + rewrite upload_created by done. left. repeat split; auto.
    + rewrite (upload_commit_fails _ _ _ _ He Hl c) by done. right.
      split; [|done]. intros (_ & _ & _ & [?|?]); done.
    + rewrite upload_refresh_fails by done. left. repeat split; auto.
  - rewrite upload_open_fails by done. right. split; [|done]. by intros (_ & _ & ? & _).
  - rewrite (upload_copy_fails _ _ _ _ He Hl n) by done. right.
    split; [|done]. by intros (_ & _ & ? & _).
Qed.

Lemma run_labels rqs w :
  map hasil (rows (run rqs w)) = map hasil (rows w) ++ committed_labels rqs.
Proof.
  revert w. induction rqs as [|rq rqs IH]; intros w; [by rewrite app_nil_r|].
  change (run (rq :: rqs) w) with (run rqs (snd (handle rq w))).
  rewrite IH. cbn [committed_labels]. rewrite app_assoc. f_equal.
  destruct rq as [f h env| | | |];
    try (by rewrite read_keeps_world, app_nil_r).
  destruct (upload_commits_or_not f h env w) as [[Hc ->]|[Hc ->]].
  - apply commits_iff in Hc. rewrite Hc. cbn. by rewrite map_app.
  - destruct (commits f h env) eqn:Hb; [by apply commits_iff in Hb|].
    by rewrite app_nil_r.
Qed.

Lemma count_label_hasil h (l : list Klasifikasi) :
  count_label h l = Z.of_nat (length (List.filter (Z.eqb h) (map hasil l))).
Proof.
  unfold count_label. induction l as [|r l IH]; [done|]. cbn.
  rewrite (Z.eqb_sym h). destruct (hasil r =? h); cbn; lia.
Qed.

(** ** More on single uploads *)

Lemma upload_status_cases f h env w :
  (¬ extension_allowed (filename f) ∧ upload_status f h env w = 400) ∨
  (extension_allowed (filename f) ∧ ¬ label_valid h ∧ upload_status f h env w = 400) ∨
  (extension_allowed (filename f) ∧ label_valid h ∧ ¬ fault_free env ∧
   upload_status f h env w = 500) ∨
  (extension_allowed (filename f) ∧ label_valid h ∧ fault_free env ∧
   upload_status f h env w = 201).
Proof.
  unfold upload_status, fault_free.
  destruct (extension_allowed_or_not (filename f)) as [He|He];
    [|left; by rewrite upload_bad_extension].
  destruct (label_valid_or_not h) as [Hl|Hl];
    [|right; left; by rewrite upload_bad_label].
  right; right.
  destruct (blob_fault env) as [| |n] eqn:Hb.
  - destruct (commit_fault env) as [|c|] eqn:Hc.
    + right. by rewrite upload_created.
    + left. rewrite (upload_commit_fails _ _ _ _ He Hl c) by done.
      do 2 (split; [done|]). split; [by intros [_ ?]|done].
    + left. rewrite upload_refresh_fails by done.
      do 2 (split; [done|]). split; [by intros [_ ?]|done].
  - left. rewrite upload_open_fails by done.
    do 2 (split; [done|]). split; [by intros [? _]|done].
  - left. rewrite (upload_copy_fails _ _ _ _ He Hl n) by done.
    do 2 (split; [done|]). split; [by intros [? _]|done].
Qed.



Lemma handle_extends_rows rq w :
  rows w `prefix_of` rows (snd (handle rq w)) ∧
  auto_increment w <= auto_increment (snd (handle rq w)).
Proof.
  destruct rq as [f h env| | | |]; try (by rewrite read_keeps_world).
  destruct (upload_leaves f h env w) as [(-> & ? & _)|(_ & -> & -> & _)].
  - done.
  - split; [by apply prefix_app_r|lia].
Qed.

Lemma upload_rows_cases f h env w :
  (rows (snd (handle (PostUpload f h env) w)) = rows w ∧
   ((∀ c, commit_fault env ≠ CommitFails c) →
    auto_increment (snd (handle (PostUpload f h env) w)) = auto_increment w))
  ∨
  (extension_allowed (filename f) ∧ label_valid h ∧
   rows (snd (handle (PostUpload f h env) w)) = rows w ++ [new_row w (filename f) h env] ∧
   auto_increment (snd (handle (PostUpload f h env) w)) = auto_increment w + 1).
Proof.
  destruct (extension_allowed_or_not (filename f)) as [He|He];
    [|by rewrite upload_bad_extension by done; left].
  destruct (label_valid_or_not h) as [Hl|Hl];
    [|by rewrite upload_bad_label by done; left].
  destruct (blob_fault env) as [| |n] eqn:Hb.
  - destruct (commit_fault env) as [|c|] eqn:Hc.
    + rewrite upload_created by done. by right.
    + rewrite (upload_commit_fails _ _ _ _ He Hl c) by done. left.
      split; [done|]. intros Hno. by destruct (Hno c).
    + rewrite upload_refresh_fails by done. by right.
  - rewrite upload_open_fails by done. by left.
  - rewrite (upload_copy_fails _ _ _ _ He Hl n) by done. by left.
Qed.

(** ** Ids and the order of the table *)

Lemma id_decides_the_row (l : list Klasifikasi) x y :
  NoDup (map id l) → x ∈ l → y ∈ l → id x = id y → x = y.
Proof.
  intros Hl Hx Hy Heq.
  pose proof (filter_id_unique l x Hl Hx) as Fx.
  pose proof (filter_id_unique l y Hl Hy) as Fy.
  rewrite Heq, Fy in Fx. by injection Fx.
Qed.

Lemma ascending_ids_unique (l : list Klasifikasi) :
  StronglySorted (fun a b => id a < id b) l → NoDup (map id l).
Proof.
  induction 1 as [|x l _ IH Hx]; [apply NoDup_nil_2|].
  cbn. apply NoDup_cons. split; [|done].
  intros (y & Hy & Hin)%list_elem_of_fmap.
  rewrite Forall_forall in Hx. specialize (Hx y Hin). lia.
Qed.

Lemma order_by_id_desc_snoc (l : list Klasifikasi) x :
  NoDup (map id l) → Forall (fun r => id r < id x) l →
  order_by_id_desc (l ++ [x]) = x :: order_by_id_desc l.
Proof.
  intros Hl Hx.
  assert (NoDup (map id (l ++ [x]))) as Hlx.
  { rewrite map_app. apply NoDup_app. split; [done|]. split; [|apply NoDup_singleton].
    intros i (r & -> & Hr)%list_elem_of_fmap Hi%list_elem_of_singleton.
    cbn in Hi. rewrite Forall_forall in Hx. specialize (Hx r Hr). lia. }
  apply (StronglySorted_unique_strong id_desc).
  - intros x1 x2 H1 H2 H12 H21. apply (id_decides_the_row (l ++ [x])); [done| | |].
    + by rewrite order_by_id_desc_perm in H1.
    + apply elem_of_app. apply elem_of_cons in H2 as [->|H2].
      * right. apply list_elem_of_here.
      * left. by rewrite order_by_id_desc_perm in H2.
    + unfold id_desc in *. lia.
  - apply order_by_id_desc_sorted.
  - apply StronglySorted_cons. split; [|apply order_by_id_desc_sorted].
    rewrite order_by_id_desc_perm. eapply Forall_impl; [done|].
    intros r Hr. unfold id_desc. cbv beta in Hr. lia.
  - rewrite !order_by_id_desc_perm. by rewrite Permutation_app_comm.
Qed.

Lemma order_by_id_desc_ascending (l : list Klasifikasi) :
  StronglySorted (fun a b => id a < id b) l → order_by_id_desc l = reverse l.
Proof.
  induction l as [|x l IH] using rev_ind; [done|].
  intros (Hx & Hl & _)%StronglySorted_app.
  rewrite reverse_snoc, <- IH by done.
  apply order_by_id_desc_snoc; [by apply ascending_ids_unique|].
  apply Forall_forall. intros r Hr. apply Hx; [done|apply list_elem_of_here].
Qed.

(** The ids of a table grown from a fresh database. *)
Lemma handle_keeps_ascending rq w :
  ids_below_counter w ∧ ids_ascending w ∧ 1 <= auto_increment w ∧
    Forall (fun r => 1 <= id r) (rows w) →
  ids_below_counter (snd (handle rq w)) ∧ ids_ascending (snd (handle rq w)) ∧
    1 <= auto_increment (snd (handle rq w)) ∧
    Forall (fun r => 1 <= id r) (rows (snd (handle rq w))).
Proof.
  destruct rq as [f h env| | | |]; try (by rewrite read_keeps_world).
  unfold ids_below_counter, ids_ascending. intros (Hb & Ha & Hc & H1).
  pose proof (handle_extends_rows (PostUpload f h env) w) as [_ Hmono].
  destruct (upload_rows_cases f h env w) as [[-> _]|(_ & _ & -> & Hn)].
  - split; [|split; [done|split; [lia|done]]].
    eapply Forall_impl; [exact Hb|]. intros r Hr. cbv beta in *. lia.
  - rewrite Hn. split; [|split; [|split; [lia|]]].
    + apply Forall_app. split; [|apply Forall_singleton; cbn; lia].
      eapply Forall_impl; [exact Hb|]. intros r Hr. cbv beta in *. lia.
    + apply StronglySorted_app_2; [|done|repeat constructor].
      intros x1 x2 Hx1 ->%list_elem_of_singleton. cbn.
      rewrite Forall_forall in Hb. by apply Hb.
    + apply Forall_app. split; [done|]. apply Forall_singleton. cbn. lia.
Qed.

Lemma run_keeps_ascending rqs dir :
  ids_below_counter (run rqs (init_world dir)) ∧
  ids_ascending (run rqs (init_world dir)) ∧
  1 <= auto_increment (run rqs (init_world dir)) ∧
  Forall (fun r => 1 <= id r) (rows (run rqs (init_world dir))).
Proof.
  induction rqs as [|rq rqs IH] using rev_ind.
  - cbn. repeat split; try constructor. lia.
  - rewrite run_snoc. by apply handle_keeps_ascending.
Qed.

Lemma handle_keeps_rows_from_uploads rq w :
  rows_from_uploads w → rows_from_uploads (snd (handle rq w)).
Proof.
  destruct rq as [f h env| | | |]; try (by rewrite read_keeps_world).
  unfold rows_from_uploads. intros Hw.
  destruct (upload_rows_cases f h env w) as [[-> _]|(He & _ & -> & _)]; [done|].
  apply Forall_app. split; [done|]. apply Forall_singleton. split; [|done].
  by exists (filename f).
Qed.

Lemma handle_keeps_consecutive rq w :
  match rq with PostUpload _ _ env => ∀ c, commit_fault env ≠ CommitFails c | _ => True end →
  map id (rows w) = seqZ 1 (Z.of_nat (length (rows w))) ∧
    auto_increment w = 1 + Z.of_nat (length (rows w)) →
  map id (rows (snd (handle rq w)))
    = seqZ 1 (Z.of_nat (length (rows (snd (handle rq w))))) ∧
    auto_increment (snd (handle rq w))
    = 1 + Z.of_nat (length (rows (snd (handle rq w)))).
Proof.
  destruct rq as [f h env| | | |]; try (by rewrite read_keeps_world).
  intros Hc [Hids Hcount].
  destruct (upload_rows_cases f h env w) as [[-> Hsame]|(_ & _ & -> & ->)].
  - by rewrite Hsame.
  - rewrite map_app, length_app, Hids. cbn [map length new_row id].
    rewrite Nat.add_1_r, seqZ_S, Hcount. split; [done|lia].
Qed.

Lemma run_keeps_rows_from_uploads rqs w :
  rows_from_uploads w → rows_from_uploads (run rqs w).
Proof.
  revert w. induction rqs as [|rq rqs IH]; intros w Hw; [done|].
  cbn. by apply IH, handle_keeps_rows_from_uploads.
Qed.

Lemma run_keeps_consecutive rqs dir :
  commits_succeed rqs →
  map id (rows (run rqs (init_world dir)))
    = seqZ 1 (Z.of_nat (length (rows (run rqs (init_world dir))))) ∧
  auto_increment (run rqs (init_world dir))
    = 1 + Z.of_nat (length (rows (run rqs (init_world dir)))).
Proof.
  unfold commits_succeed. induction rqs as [|rq rqs IH] using rev_ind; [done|].
  intros H. apply Forall_app in H as [Hrqs Hrq].
  apply Forall_inv in Hrq.
  rewrite run_snoc. apply handle_keeps_consecutive; [exact Hrq|by apply IH].
Qed.

(** ** Pages, filters and what a read depends on *)

Lemma elem_of_page {A} (l : list A) n m x : x ∈ take n (drop m l) → x ∈ l.
Proof.
  intros Hx. rewrite <- (take_drop m l). apply elem_of_app. right.
  rewrite <- (take_drop n (drop m l)). apply elem_of_app. by left.
Qed.

Lemma found_by_its_id w r :
  ids_unique w → r ∈ rows w →
  handle (GetKlasifikasiId (Dict.id (to_dict r))) w = (answer 200 (Satu (to_dict r)), w).
Proof.
  intros Hu Hr. rewrite get_data_by_id_head. cbn [to_dict Dict.id].
  by rewrite (filter_id_unique _ _ Hu Hr).
Qed.

Lemma filter_labels_partition (l : list Klasifikasi) :
  Forall (fun r => label_valid (hasil r)) l →
  List.filter (fun r => hasil r =? 1) l ++ List.filter (fun r => hasil r =? 0) l ≡ₚ l.
Proof.
  induction 1 as [|r l Hr _ IH]; [done|]. cbn [List.filter].
  destruct Hr as [Hr|Hr]; rewrite Hr; cbn.
  - by rewrite <- Permutation_middle, IH.
  - by rewrite IH.
Qed.

Lemma read_depends_on_rows rq w1 w2 :
  is_read rq = true → rows w1 = rows w2 →
  fst (handle rq w1) = fst (handle rq w2).
Proof.
  destruct rq as [f h env|skip lim|i|h|]; [done|..]; intros _ Hrows.
  - rewrite !(get_all_data_defaults skip lim).
    destruct (Z_lt_le_dec (default 0 skip) 0);
      [by rewrite !get_all_data_negative by auto|].
    destruct (Z_lt_le_dec (default 100 lim) 0);
      [by rewrite !get_all_data_negative by auto|].
    by rewrite !get_all_data_page, Hrows.
  - by rewrite !get_data_by_id_head, Hrows.
  - destruct (label_valid_or_not h).
    + by rewrite !get_by_status_rows, Hrows.
    + by rewrite !get_by_status_bad.
  - by rewrite !get_statistics_counts, Hrows.
Qed.

(** ** The percentages of a table with one label only *)

Lemma int_truediv_self p : PyNum.int_truediv (Z.pos p) (Z.pos p) = 1%float.
Proof.
  unfold PyNum.int_truediv. cbn [PyNum.Z2SF SFdiv xorb].
  unfold SFdiv_core_binary.
  replace (Zdigits2 (Z.pos p) + 0 - (Zdigits2 (Z.pos p) + 0)) with 0 by lia.
  change (fexp prec emax 0) with (-53).
  change (Z.min (-53) (0 - 0)) with (-53).
  change (0 - 0 - -53) with 53. cbv iota beta zeta.
  assert (IntDef.Z.div_eucl (IntDef.Z.shiftl (Z.pos p) 53) (Z.pos p) = (2 ^ 53, 0)) as ->.
  { change (IntDef.Z.shiftl (Z.pos p) 53) with (Z.shiftl (Z.pos p) 53).
    rewrite Z.shiftl_mul_pow2 by lia.
    change IntDef.Z.div_eucl with Z.div_eucl.
    pose proof (Z_div_mult (2 ^ 53) (Z.pos p) ltac:(lia)) as Hq.
    pose proof (Z_mod_mult (2 ^ 53) (Z.pos p)) as Hr.
    rewrite (Z.mul_comm (Z.pos p)).
    unfold Z.div, Z.modulo in Hq, Hr.
    destruct (Z.div_eucl (2 ^ 53 * Z.pos p) (Z.pos p)) as [q r].
    cbn [fst snd] in Hq, Hr. congruence. }
  assert (new_location (Z.pos p) 0 = SpecFloat.loc_Exact) as ->.
  { unfold new_location. destruct (Z.even (Z.pos p)); reflexivity. }
  vm_compute. reflexivity.
Qed.

Lemma percentage_of_all n : 0 < n → percentage n n = PyNum.NFloat 100%float.
Proof.
  intros Hn. unfold percentage. destruct n as [|p|p]; [lia| |lia].
  cbn [Z.eqb]. rewrite int_truediv_self. vm_compute. reflexivity.
Qed.

Lemma percentage_of_none n : 0 < n → percentage 0 n = PyNum.NFloat 0%float.
Proof.
  intros Hn. unfold percentage. destruct n as [|p|p]; [lia| |lia]. reflexivity.
Qed.

Lemma count_label_all h (l : list Klasifikasi) :
  Forall (fun r => hasil r = h) l → count_label h l = Z.of_nat (length l).
Proof.
  unfold count_label. induction 1 as [|r l Hr _ IH]; [done|].
  cbn [List.filter]. rewrite Hr, Z.eqb_refl, !length_cons. lia.
Qed.

Lemma count_label_none h h' (l : list Klasifikasi) :
  h ≠ h' → Forall (fun r => hasil r = h) l → count_label h' l = 0.
Proof.
  unfold count_label. intros Hne. induction 1 as [|r l Hr _ IH]; [done|].
  cbn [List.filter]. rewrite Hr. by destruct (Z.eqb_spec h h').
Qed.

Lemma run_extends_rows rqs w : rows w `prefix_of` rows (run rqs w).
Proof.
  revert w. induction rqs as [|rq rqs IH]; intros w; [done|].
  change (run (rq :: rqs) w) with (run rqs (snd (handle rq w))).
  etrans; [apply handle_extends_rows|apply IH].
Qed.

(** * The claims *)

(** C1: an upload whose filename extension (the suffix after the last
    dot, compared case-insensitively) is not one of jpg, jpeg, png, bmp, or
    whose label is not exactly 0 or 1, is answered HTTP 400 with a
    validation error, whatever the environment, and the world after it is
    the world before it: no file is written (a file already at that
    location is untouched), no row is inserted, the counter and the trace
    of effects are as they were. *)
Theorem upload_invalid_is_rejected_without_effect f h env w :
  ¬ extension_allowed (filename f) ∨ ¬ label_valid h →
  ∃ d, (d = FileTypeTidakDidukung ∨ d = NilaiHasilHarus01) ∧
       handle (PostUpload f h env) w = (answer 400 (ErrorBody d), w).
Proof.
  intros Hbad.
  destruct (extension_allowed_or_not (filename f)) as [He|He].
  - destruct Hbad as [?|Hl]; [done|].
    exists NilaiHasilHarus01. split; [by right|]. by apply upload_bad_label.
  - exists FileTypeTidakDidukung. split; [by left|]. by apply upload_bad_extension.
Qed.

Lemma upload_invalid_is_rejected_without_effect_witness :
  ∃ d, (d = FileTypeTidakDidukung ∨ d = NilaiHasilHarus01) ∧
       handle (PostUpload {| filename := "cabai.png.GIF"; file := [Byte.x47] |} 7
                 (no_fault 0))
         (init_world {[ "uploads/cabai.png.GIF" := [Byte.x00] ]})
       = (answer 400 (ErrorBody d),
          init_world {[ "uploads/cabai.png.GIF" := [Byte.x00] ]}).
Proof.
  apply (upload_invalid_is_rejected_without_effect
           {| filename := "cabai.png.GIF"; file := [Byte.x47] |} 7).
  right. unfold label_valid. lia.
Defined.

(** C9: for an upload whose filename has no dot, the extension the
    handler tests is the whole filename, lowered: with a valid label the
    upload passes validation (is not answered 400) exactly when the whole
    filename, lowered, is one of jpg, jpeg, png, bmp, and when the file
    write and the commit go through it is then answered 201. *)
Theorem filename_without_dot_is_its_extension f h env w :
  PyStr.contains "." (filename f) = false → label_valid h →
  file_extension (filename f) w = (Ret (PyStr.lower (filename f)), w) ∧
  (status_code (fst (handle (PostUpload f h env) w)) ≠ 400 ↔
   PyStr.lower (filename f) ∈ allowed_extensions) ∧
  (blob_fault env = BlobOk → commit_fault env = CommitOk →
   (status_code (fst (handle (PostUpload f h env) w)) = 201 ↔
    PyStr.lower (filename f) ∈ allowed_extensions)).
Proof.
  intros Hdot Hl.
  assert (extension_allowed (filename f) ↔
          PyStr.lower (filename f) ∈ allowed_extensions) as Hiff.
  { by rewrite extension_allowed_iff, after_last_no_sep. }
  split; [|split].
  - unfold file_extension. by rewrite index_last_split, after_last_no_sep.
  - rewrite <- Hiff.
    destruct (extension_allowed_or_not (filename f)) as [He|He].
    + split; [done|]. intros _.
      destruct (blob_fault env) as [| |n] eqn:Hb;
        [destruct (commit_fault env) as [|c|] eqn:Hc|..].
      all: first [ by rewrite upload_created
                 | by rewrite (upload_commit_fails _ _ _ _ He Hl c)
                 | by rewrite upload_refresh_fails
                 | by rewrite upload_open_fails
                 | by rewrite (upload_copy_fails _ _ _ _ He Hl n) ].
    + rewrite upload_bad_extension by done. cbn. split; [done|]. intros; done.
  - intros Hb Hc. rewrite <- Hiff.
    destruct (extension_allowed_or_not (filename f)) as [He|He].
    + by rewrite upload_created.
    + rewrite upload_bad_extension by done. cbn. split; [done|]. intros; done.
Qed.

Lemma filename_without_dot_is_its_extension_witness :
  file_extension "PNG" (init_world ∅) = (Ret (PyStr.lower "PNG"), init_world ∅) ∧
  (status_code (fst (handle (PostUpload {| filename := "PNG"; file := [] |} 1
                               (no_fault 5)) (init_world ∅))) ≠ 400 ↔
   PyStr.lower "PNG" ∈ allowed_extensions) ∧
  (blob_fault (no_fault 5) = BlobOk → commit_fault (no_fault 5) = CommitOk →
   (status_code (fst (handle (PostUpload {| filename := "PNG"; file := [] |} 1
                                (no_fault 5)) (init_world ∅))) = 201 ↔
    PyStr.lower "PNG" ∈ allowed_extensions)).
Proof.
  apply (filename_without_dot_is_its_extension
           {| filename := "PNG"; file := [] |} 1 (no_fault 5) (init_world ∅)).
  - reflexivity.
  - unfold label_valid. lia.
Defined.

(** C2, as the code has it: a valid upload (allowed extension, label 0 or
    1) on a table whose ids are unique and below the counter is answered
    HTTP 201 with the created record when the file write and the insert
    (commit and refresh) succeed, and then looking the returned id up
    returns that same record, with the path and the label the upload
    stored; when one of them fails the upload is answered HTTP 500, and
    when the write or the commit fails the table has no new row. *)
Theorem valid_upload_is_created_and_found f h env w :
  store_ok w → extension_allowed (filename f) → label_valid h →
  (blob_fault env = BlobOk → commit_fault env = CommitOk →
   ∃ d w' r,
     handle (PostUpload f h env) w = (answer 201 (Disimpan d), w') ∧
     r ∈ rows w' ∧ d = to_dict r ∧
     path r = file_location (filename f) ∧ hasil r = h ∧
     handle (GetKlasifikasiId (Dict.id d)) w' = (answer 200 (Satu d), w')) ∧
  (blob_fault env ≠ BlobOk ∨ commit_fault env ≠ CommitOk →
   status_code (fst (handle (PostUpload f h env) w)) = 500) ∧
  (blob_fault env ≠ BlobOk ∨ (∃ c, commit_fault env = CommitFails c) →
   rows (snd (handle (PostUpload f h env) w)) = rows w).
Proof.
  intros [_ Hbelow] He Hl. split; [|split].
  - intros Hb Hc. rewrite upload_created by done.
    eexists _, _, (new_row w (filename f) h env).
    split; [done|]. cbn [rows].
    split; [apply elem_of_app; right; apply list_elem_of_here|].
    do 3 (split; [done|]).
    rewrite get_data_by_id_head. cbn [rows to_dict Dict.id new_row id].
    rewrite List.filter_app, (filter_id_above _ _ Hbelow). cbn.
    by rewrite Z.eqb_refl.
  - intros Hfail.
    destruct (blob_fault env) as [| |n] eqn:Hb.
    + destruct (commit_fault env) as [|c|] eqn:Hc; [by destruct Hfail| |].
      * by rewrite (upload_commit_fails _ _ _ _ He Hl c).
      * by rewrite upload_refresh_fails.
    + by rewrite upload_open_fails.
    + by rewrite (upload_copy_fails _ _ _ _ He Hl n).
  - intros Hfail.
    destruct (blob_fault env) as [| |n] eqn:Hb.
    + destruct Hfail as [?|[c Hc]]; [done|].
      by rewrite (upload_commit_fails _ _ _ _ He Hl c).
    + by rewrite upload_open_fails.
    + by rewrite (upload_copy_fails _ _ _ _ He Hl n).
Qed.

Lemma valid_upload_is_created_and_found_witness :
  ∃ d w' r,
    handle (PostUpload {| filename := "daun.JPG"; file := [Byte.xff; Byte.xd8] |} 1
              (no_fault 1700000000)) (init_world ∅)
    = (answer 201 (Disimpan d), w') ∧
    r ∈ rows w' ∧ d = to_dict r ∧
    path r = file_location "daun.JPG" ∧ hasil r = 1 ∧
    handle (GetKlasifikasiId (Dict.id d)) w' = (answer 200 (Satu d), w').
Proof.
  refine (proj1 (valid_upload_is_created_and_found
                   {| filename := "daun.JPG"; file := [Byte.xff; Byte.xd8] |} 1
                   (no_fault 1700000000) (init_world ∅) _ _ _) _ _).
  - apply init_world_store_ok.
  - apply extension_allowed_iff. apply (bool_decide_unpack _). reflexivity.
  - unfold label_valid. lia.
  - reflexivity.
  - reflexivity.
Defined.

(** C2 as the specification words it does not hold: this upload is valid
    (extension png, label 1) and arrives at a fresh store, but the target
    directory of its location does not exist, [open] raises, and the answer
    is HTTP 500, not 201. *)
Lemma valid_upload_answered_500 :
  store_ok (init_world ∅) ∧
  extension_allowed "tanpa_folder/cabai.png" ∧
  label_valid 1 ∧
  handle (PostUpload {| filename := "tanpa_folder/cabai.png"; file := [Byte.x89] |} 1
            {| blob_fault := OpenFails; commit_fault := CommitOk; db_now := 0 |})
    (init_world ∅)
  = (answer 500 (ErrorBody (ErrorDetail OSError)), init_world ∅) ∧
  status_code (fst (handle
    (PostUpload {| filename := "tanpa_folder/cabai.png"; file := [Byte.x89] |} 1
       {| blob_fault := OpenFails; commit_fault := CommitOk; db_now := 0 |})
    (init_world ∅))) ≠ 201.
Proof.
  split; [apply init_world_store_ok|].
  split; [apply extension_allowed_iff, (bool_decide_unpack _); reflexivity|].
  split; [unfold label_valid; lia|].
  split; [reflexivity|]. vm_compute. discriminate.
Qed.

(** C6: on a table whose ids are unique (the primary key), looking an id
    up returns, with HTTP 200, the one row of the table that has this id,
    and it is answered HTTP 404 "not found" exactly when the table has no
    row with this id; the world is unchanged either way. *)
Theorem get_by_id_finds_the_record i w :
  ids_unique w →
  (∀ r, r ∈ rows w → id r = i →
        handle (GetKlasifikasiId i) w = (answer 200 (Satu (to_dict r)), w)) ∧
  (status_code (fst (handle (GetKlasifikasiId i) w)) = 404 ↔
   ¬ ∃ r, r ∈ rows w ∧ id r = i) ∧
  ((¬ ∃ r, r ∈ rows w ∧ id r = i) →
   handle (GetKlasifikasiId i) w = (answer 404 (ErrorBody DataTidakDitemukan), w)).
Proof.
  intros Hu. rewrite get_data_by_id_head. split; [|split].
  - intros r Hr <-. by rewrite (filter_id_unique _ _ Hu Hr).
  - destruct (head (List.filter (fun r => id r =? i) (rows w))) as [r|] eqn:Hh.
    + apply filter_id_some in Hh. cbn. split; [done|]. intros []; eauto.
    + cbn. split; [|done]. intros _ (r & Hr & Hi).
      by rewrite <- Hi, (filter_id_unique _ _ Hu Hr) in Hh.
  - intros Hnone. rewrite filter_id_absent; [done|].
    intros r Hr Hi. apply Hnone. eauto.
Qed.

Lemma get_by_id_finds_the_record_witness :
  let r1 := {| id := 1; path := "uploads/a.png"; hasil := 1;
               created_at := 10; updated_at := 10 |} in
  let r2 := {| id := 2; path := "uploads/a.png"; hasil := 0;
               created_at := 20; updated_at := 20 |} in
  let w := {| blobs := {[ "uploads/a.png" := [] ]}; rows := [r1; r2];
              auto_increment := 3; trace := [] |} in
  handle (GetKlasifikasiId 2) w = (answer 200 (Satu (to_dict r2)), w).
Proof.
  intros r1 r2 w.
  refine (proj1 (get_by_id_finds_the_record 2 w _) r2 _ _).
  - apply (bool_decide_unpack _). reflexivity.
  - apply elem_of_cons. right. apply list_elem_of_here.
  - reflexivity.
Defined.

(** C5: a status query with a label other than 0 and 1 is answered HTTP
    400 with a validation error; with label 0 or 1 it is answered HTTP 200
    with exactly the rows of the table whose stored label is the argument
    (each as often as the table has it), ordered by id descending, and
    their number as the total; the world is unchanged either way. *)
Theorem get_by_status_filters h w :
  (¬ label_valid h →
   handle (GetKlasifikasiStatus h) w = (answer 400 (ErrorBody HasilHarus01), w)) ∧
  (label_valid h →
   ∃ records,
     handle (GetKlasifikasiStatus h) w =
       (answer 200 (PerStatus ("Status " +:+ label h)
                      (Z.of_nat (length records)) (map to_dict records)), w) ∧
     records ≡ₚ List.filter (fun r => hasil r =? h) (rows w) ∧
     (∀ r, r ∈ records ↔ r ∈ rows w ∧ hasil r = h) ∧
     StronglySorted id_desc records).
Proof.
  split; [apply get_by_status_bad|]. intros Hl.
  exists (order_by_id_desc (List.filter (fun r => hasil r =? h) (rows w))).
  split; [|split; [|split]].
  - rewrite get_by_status_rows by done. cbn zeta. by rewrite length_map.
  - apply order_by_id_desc_perm.
  - intros r. rewrite order_by_id_desc_perm, !list_elem_of_In, filter_In.
    by rewrite Z.eqb_eq.
  - apply order_by_id_desc_sorted.
Qed.

Lemma get_by_status_filters_witness :
  let up n h := PostUpload {| filename := "daun.png"; file := [] |} h (no_fault n) in
  let w := run [up 1 1; up 2 0; up 3 1] (init_world ∅) in
  ∃ records,
    handle (GetKlasifikasiStatus 1) w =
      (answer 200 (PerStatus ("Status " +:+ label 1)
                     (Z.of_nat (length records)) (map to_dict records)), w) ∧
    records ≡ₚ List.filter (fun r => hasil r =? 1) (rows w) ∧
    (∀ r, r ∈ records ↔ r ∈ rows w ∧ hasil r = 1) ∧
    StronglySorted id_desc records.
Proof.
  intros up w. apply (proj2 (get_by_status_filters 1 w)).
  unfold label_valid. lia.
Defined.

(** C4, as the code has it: for every store and every skip and limit that
    are not negative, the list operation is answered HTTP 200 with the rows
    of the table ordered by id descending, the first skip of them left out
    and at most limit of the rest returned, together with the number of
    rows of the whole table; a parameter left out of the query string
    stands for skip 0, limit 100; and on a table whose ids are 1, 2, 3,
    skip 0 limit 2 returns the rows 3, 2 in this order and skip 2 limit 2
    returns the row 1.  The world is unchanged. *)
Theorem list_is_a_page_newest_first skip lim w :
  0 <= skip → 0 <= lim →
  (∃ sorted,
     sorted ≡ₚ rows w ∧ StronglySorted id_desc sorted ∧
     handle (GetKlasifikasi (Some skip) (Some lim)) w =
       (answer 200 (Semua (Z.of_nat (length (rows w)))
                      (map to_dict (take (Z.to_nat lim)
                                      (drop (Z.to_nat skip) sorted)))), w)) ∧
  (∀ s l, handle (GetKlasifikasi s l) w =
          handle (GetKlasifikasi (Some (default 0 s)) (Some (default 100 l))) w) ∧
  (map id (rows w) ≡ₚ [1; 2; 3] →
   (∃ data, handle (GetKlasifikasi (Some 0) (Some 2)) w = (answer 200 (Semua 3 data), w) ∧
            map Dict.id data = [3; 2]) ∧
   (∃ data, handle (GetKlasifikasi (Some 2) (Some 2)) w = (answer 200 (Semua 3 data), w) ∧
            map Dict.id data = [1])).
Proof.
  intros Hs Hl. split; [|split].
  - exists (order_by_id_desc (rows w)).
    split; [apply order_by_id_desc_perm|].
    split; [apply order_by_id_desc_sorted|]. by apply get_all_data_page.
  - intros s l. apply get_all_data_defaults.
  - intros Hids.
    assert (Z.of_nat (length (rows w)) = 3) as Hlen.
    { rewrite <- (length_map id), Hids. reflexivity. }
    pose proof (order_by_id_desc_123 _ Hids) as Hsorted.
    split; eexists; (split; [rewrite get_all_data_page, Hlen by lia; reflexivity|]).
    + rewrite map_id_to_dict. change (Z.to_nat 2) with 2%nat. change (Z.to_nat 0) with 0%nat.
      rewrite <- firstn_map, <- skipn_map, Hsorted. reflexivity.
    + rewrite map_id_to_dict. change (Z.to_nat 2) with 2%nat.
      rewrite <- firstn_map, <- skipn_map, Hsorted. reflexivity.
Qed.

Lemma list_is_a_page_newest_first_witness :
  let up n h := PostUpload {| filename := "cabai.jpeg"; file := [Byte.xff] |} h (no_fault n) in
  let w := run [up 10 1; up 20 0; up 30 1] (init_world ∅) in
  ∃ data, handle (GetKlasifikasi (Some 0) (Some 2)) w = (answer 200 (Semua 3 data), w) ∧
          map Dict.id data = [3; 2].
Proof.
  intros up w.
  refine (proj1 (proj2 (proj2 (list_is_a_page_newest_first 0 2 w _ _)) _)).
  - lia.
  - lia.
  - reflexivity.
Defined.

(** C4 as the specification words it, for every skip and limit, does not
    hold: the handler passes any integer on, no answer can hold at most -1
    records, and the database refuses the statement, so on the table with
    the ids 1, 2, 3 the request with limit -1 is answered HTTP 500. *)
Lemma list_with_negative_limit_answered_500 :
  let up n h := PostUpload {| filename := "cabai.jpeg"; file := [Byte.xff] |} h (no_fault n) in
  let w := run [up 10 1; up 20 0; up 30 1] (init_world ∅) in
  map id (rows w) = [1; 2; 3] ∧
  handle (GetKlasifikasi (Some 0) (Some (-1))) w = (answer 500 InternalServerError, w) ∧
  ∀ total data, content (fst (handle (GetKlasifikasi (Some 0) (Some (-1))) w))
                ≠ Semua total data.
Proof. cbv zeta. split; [reflexivity|]. split; [reflexivity|]. intros total data. vm_compute. discriminate. Qed.

(** C3: for every store the statistics operation is answered HTTP 200
    with the number of rows, the number of rows labelled Healthy (1), the
    number labelled Diseased (0), and each of the two as a percentage of
    the total, computed as [round(count / total * 100, 2)] in floating
    point; when the table is empty both percentages are the integer 0, and
    no division is attempted (so no error and no NaN).  The world is
    unchanged. *)
Theorem statistics_counts_and_percentages w :
  ∃ st,
    handle GetStatistik w = (answer 200 (Statistics st), w) ∧
    total_data st = Z.of_nat (length (rows w)) ∧
    status_sehat st = count_label 1 (rows w) ∧
    status_sakit st = count_label 0 (rows w) ∧
    (rows w = [] →
     persentase_sehat st = PyNum.NInt 0 ∧ persentase_sakit st = PyNum.NInt 0) ∧
    (rows w ≠ [] →
     persentase_sehat st =
       PyNum.NFloat (PyNum.round (PyNum.float_mul_int
         (PyNum.int_truediv (status_sehat st) (total_data st)) 100) 2) ∧
     persentase_sakit st =
       PyNum.NFloat (PyNum.round (PyNum.float_mul_int
         (PyNum.int_truediv (status_sakit st) (total_data st)) 100) 2)).
Proof.
  eexists. split; [apply get_statistics_counts|]. cbn.
  do 3 (split; [done|]). unfold percentage. split.
  - by intros ->.
  - intros Hne. destruct (rows w) as [|r l]; [done|].
    by destruct (Z.eqb_spec (Z.of_nat (length (r :: l))) 0).
Qed.

(** C8: every read operation (list, get by id, get by status,
    statistics) leaves the world as it is, and so does any sequence of
    reads; asking the same read again, with any reads in between and no
    upload, gives the same answer. *)
Theorem reads_are_pure_and_repeatable rq between w :
  is_read rq = true → forallb is_read between = true →
  snd (handle rq w) = w ∧
  run between w = w ∧
  fst (handle rq (run between (snd (handle rq w)))) = fst (handle rq w).
Proof.
  intros Hrq Hbetween.
  rewrite (read_keeps_world rq w Hrq), (run_reads between w Hbetween). done.
Qed.

Lemma reads_are_pure_and_repeatable_witness :
  let w := run [PostUpload {| filename := "a.bmp"; file := [] |} 0 (no_fault 3)]
             (init_world ∅) in
  snd (handle (GetKlasifikasiStatus 0) w) = w ∧
  run [GetStatistik; GetKlasifikasi None None; GetKlasifikasiId 1] w = w ∧
  fst (handle (GetKlasifikasiStatus 0)
         (run [GetStatistik; GetKlasifikasi None None; GetKlasifikasiId 1]
            (snd (handle (GetKlasifikasiStatus 0) w))))
  = fst (handle (GetKlasifikasiStatus 0) w).
Proof.
  intros w.
  apply (reads_are_pure_and_repeatable (GetKlasifikasiStatus 0)
           [GetStatistik; GetKlasifikasi None None; GetKlasifikasiId 1] w).
  - reflexivity.
  - reflexivity.
Defined.

(** C10: starting from a table whose labels are all 0 or 1 (the empty
    table of a fresh database is one), after any sequence of requests,
    with any outcomes of the file writes and commits, every row of the
    table still has its label in 0, 1: the upload handler inserts a row
    only after it has checked the label, and no handler changes or removes
    a row.  Therefore the statistics always report
    status_sehat + status_sakit = total_data. *)
Theorem persisted_labels_are_0_or_1 rqs w0 :
  labels_valid w0 →
  labels_valid (run rqs w0) ∧
  ∃ st, fst (handle GetStatistik (run rqs w0)) = answer 200 (Statistics st) ∧
        status_sehat st + status_sakit st = total_data st.
Proof.
  intros Hw0. pose proof (run_keeps_labels_valid rqs w0 Hw0) as Hw.
  split; [done|]. eexists. rewrite get_statistics_counts. split; [done|].
  cbn. by apply count_labels_add.
Qed.

Lemma persisted_labels_are_0_or_1_witness :
  let rqs := [PostUpload {| filename := "a.png"; file := [] |} 1 (no_fault 1);
              PostUpload {| filename := "b.png"; file := [] |} 5 (no_fault 2);
              PostUpload {| filename := "c.png"; file := [] |} 0
                {| blob_fault := BlobOk; commit_fault := CommitFails true; db_now := 3 |};
              GetStatistik;
              PostUpload {| filename := "d.png"; file := [] |} 0 (no_fault 4)] in
  labels_valid (run rqs (init_world ∅)) ∧
  ∃ st, fst (handle GetStatistik (run rqs (init_world ∅))) = answer 200 (Statistics st) ∧
        status_sehat st + status_sakit st = total_data st.
Proof.
  intros rqs. apply (persisted_labels_are_0_or_1 rqs (init_world ∅)).
  apply Forall_nil_2.
Defined.




(** X1: after any sequence of requests on a fresh database, of which N
    uploads committed a row (valid input, file written, commit gone
    through; such an upload is answered 201, or 500 when the refresh after
    the commit raised) and k of those carried the label 1, the statistics
    report total_data = N, status_sehat = k, persentase_sehat =
    [round(k / N * 100, 2)], and the integer 0 as percentage when N = 0. *)
Theorem statistics_after_uploads rqs dir :
  ∃ st,
    fst (handle GetStatistik (run rqs (init_world dir))) = answer 200 (Statistics st) ∧
    total_data st = Z.of_nat (length (committed_labels rqs)) ∧
    status_sehat st = Z.of_nat (length (List.filter (Z.eqb 1) (committed_labels rqs))) ∧
    persentase_sehat st = percentage (status_sehat st) (total_data st) ∧
    (committed_labels rqs = [] → persentase_sehat st = PyNum.NInt 0).
Proof.
  eexists. rewrite get_statistics_counts. split; [reflexivity|]. cbn.
  pose proof (run_labels rqs (init_world dir)) as Hl. cbn in Hl.
  split; [by rewrite <- Hl, length_map|].
  split; [by rewrite count_label_hasil, Hl|].
  split; [done|]. intros Hnone. rewrite Hnone in Hl.
  apply map_eq_nil in Hl. by rewrite Hl.
Qed.

(** * Further properties of the handlers *)

(** X2: an upload is answered with exactly one of three status codes: 400
    exactly when the extension is not allowed or the label is not 0 or 1,
    201 exactly when the input is valid and the file write, the commit and
    the refresh all go through, 500 exactly when the input is valid and one
    of the three raises.  The extension is checked first: with a bad
    extension the answer is the file type message whatever the label. *)
Theorem upload_status_is_decided_by_input_and_faults f h env w :
  (upload_status f h env w = 400 ↔
   ¬ (extension_allowed (filename f) ∧ label_valid h)) ∧
  (upload_status f h env w = 201 ↔
   extension_allowed (filename f) ∧ label_valid h ∧ fault_free env) ∧
  (upload_status f h env w = 500 ↔
   extension_allowed (filename f) ∧ label_valid h ∧ ¬ fault_free env) ∧
  (¬ extension_allowed (filename f) →
   fst (handle (PostUpload f h env) w) = answer 400 (ErrorBody FileTypeTidakDidukung)).
Proof.
  split; [|split; [|split]];
    [destruct (upload_status_cases f h env w)
       as [(? & ->)|[(? & ? & ->)|[(? & ? & ? & ->)|(? & ? & ? & ->)]]];
     split; try done; try tauto; intros; exfalso; tauto ..|].
  intros He. by rewrite upload_bad_extension.
Qed.

(** X3: only the piece after the last dot of the filename is tested.  For
    a filename [a.e] where [e] has no dot, whatever [a] is (empty, with
    dots, with slashes), the extension check passes exactly when [e],
    lowered, is one of jpg, jpeg, png, bmp; so a name ending in a dot is
    always refused, and with a valid label the upload is answered 400
    exactly when [e] is not allowed. *)
Theorem only_the_last_piece_of_the_filename_counts a e f h env w :
  filename f = a +:+ String "." e → PyStr.contains "." e = false →
  (extension_allowed (filename f) ↔ PyStr.lower e ∈ allowed_extensions) ∧
  (e = EmptyString → upload_status f h env w = 400) ∧
  (label_valid h →
   (upload_status f h env w = 400 ↔ PyStr.lower e ∉ allowed_extensions)).
Proof.
  intros Hname Hdot.
  assert (extension_allowed (filename f) ↔ PyStr.lower e ∈ allowed_extensions) as Hiff.
  { by rewrite extension_allowed_iff, Hname, after_last_split. }
  split; [done|]. split.
  - intros ->. unfold upload_status. rewrite upload_bad_extension; [done|].
    rewrite Hiff. by apply (bool_decide_unpack _).
  - intros Hl. rewrite <- Hiff.
    destruct (upload_status_cases f h env w)
      as [(? & ->)|[(? & ? & ->)|[(? & ? & ? & ->)|(? & ? & ? & ->)]]]; split; done.
Qed.

Lemma only_the_last_piece_of_the_filename_counts_witness :
  (extension_allowed "../shell.php.PNG" ↔ PyStr.lower "PNG" ∈ allowed_extensions) ∧
  ("PNG" = EmptyString →
   upload_status {| filename := "../shell.php.PNG"; file := [] |} 0 (no_fault 0)
     (init_world ∅) = 400) ∧
  (label_valid 0 →
   (upload_status {| filename := "../shell.php.PNG"; file := [] |} 0 (no_fault 0)
      (init_world ∅) = 400 ↔ PyStr.lower "PNG" ∉ allowed_extensions)).
Proof.
  apply (only_the_last_piece_of_the_filename_counts "../shell.php" "PNG"
           {| filename := "../shell.php.PNG"; file := [] |} 0 (no_fault 0) (init_world ∅)).
  - reflexivity.
  - reflexivity.
Defined.



(** X5: the table is append-only.  After any sequence of requests the
    rows that were in the table are still its first rows, unchanged and in
    the same order, and the AUTO_INCREMENT counter has not gone down. *)
Theorem table_is_append_only rqs w :
  rows w `prefix_of` rows (run rqs w) ∧
  auto_increment w <= auto_increment (run rqs w).
Proof.
  revert w. induction rqs as [|rq rqs IH]; intros w; [done|].
  change (run (rq :: rqs) w) with (run rqs (snd (handle rq w))).
  destruct (handle_extends_rows rq w) as [Hp Hc], (IH (snd (handle rq w))) as [Hp' Hc'].
  split; [by etrans|lia].
Qed.

(** X6: the location is made from the filename alone, so an upload that
    succeeds replaces the file of every earlier record of the same
    filename: after it, every row with this location, old or new,
    references the content just uploaded. *)
Theorem upload_replaces_the_file_of_earlier_records f h env w :
  extension_allowed (filename f) → label_valid h → fault_free env →
  ∀ r, r ∈ rows (snd (handle (PostUpload f h env) w)) →
       path r = file_location (filename f) →
       blobs (snd (handle (PostUpload f h env) w)) !! path r = Some (file f).
Proof.
  intros He Hl [Hb Hc] r _ ->. rewrite upload_created by done. cbn.
  apply fs_lookup_insert_eq.
Qed.

Lemma upload_replaces_the_file_of_earlier_records_witness :
  let first_upload := {| filename := "daun.jpg"; file := [Byte.x01] |} in
  let second_upload := {| filename := "daun.jpg"; file := [Byte.x02; Byte.x03] |} in
  let w1 := snd (handle (PostUpload first_upload 1 (no_fault 1)) (init_world ∅)) in
  let r1 := {| id := 1; path := "uploads/daun.jpg"; hasil := 1;
               created_at := 1; updated_at := 1 |} in
  rows w1 = [r1] ∧
  blobs (snd (handle (PostUpload second_upload 0 (no_fault 2)) w1)) !! path r1
  = Some [Byte.x02; Byte.x03].
Proof.
  intros first_upload second_upload w1 r1. split; [reflexivity|].
  apply (upload_replaces_the_file_of_earlier_records second_upload 0 (no_fault 2) w1).
  - apply extension_allowed_iff, (bool_decide_unpack _). reflexivity.
  - unfold label_valid. lia.
  - split; reflexivity.
  - apply elem_of_cons. left. reflexivity.
  - reflexivity.
Defined.

(** X7: in a table grown from a fresh database by any sequence of
    requests, whatever fails on the way, the ids are pairwise different,
    increase strictly in the order of insertion, and lie between 1 and the
    AUTO_INCREMENT counter; so looking up an id below 1 or not below the
    counter is answered 404. *)
Theorem ids_grow_with_the_table rqs dir :
  ids_unique (run rqs (init_world dir)) ∧
  ids_ascending (run rqs (init_world dir)) ∧
  (∀ r, r ∈ rows (run rqs (init_world dir)) →
        1 <= id r < auto_increment (run rqs (init_world dir))) ∧
  (∀ i, i < 1 ∨ auto_increment (run rqs (init_world dir)) <= i →
        handle (GetKlasifikasiId i) (run rqs (init_world dir))
        = (answer 404 (ErrorBody DataTidakDitemukan), run rqs (init_world dir))).
Proof.
  destruct (run_keeps_ascending rqs dir) as (Hb & Ha & Hc & H1).
  set (w := run rqs (init_world dir)) in *.
  assert (∀ r, r ∈ rows w → 1 <= id r < auto_increment w) as Hrange.
  { intros r Hr. unfold ids_below_counter in Hb. rewrite Forall_forall in Hb, H1.
    specialize (Hb r Hr). specialize (H1 r Hr). cbv beta in *. lia. }
  split; [by apply ascending_ids_unique|]. split; [done|]. split; [done|].
  intros i Hi. rewrite get_data_by_id_head, filter_id_absent; [done|].
  intros r Hr. specialize (Hrange r Hr). lia.
Qed.

(** X8: every row of a table grown from a fresh database has the shape the
    upload handler gives it: its path is [uploads/] followed by a filename
    that passed the extension check, its two timestamps are equal (no
    request updates a row), and a file is stored at its path. *)
Theorem rows_keep_the_shape_of_their_upload rqs dir :
  ∀ r, r ∈ rows (run rqs (init_world dir)) →
       (∃ name, path r = "uploads/" +:+ name ∧ extension_allowed name) ∧
       created_at r = updated_at r ∧
       is_Some (blobs (run rqs (init_world dir)) !! path r).
Proof.
  assert (rows_from_uploads (run rqs (init_world dir))) as Hshape
    by apply run_keeps_rows_from_uploads, Forall_nil_2.
  assert (blobs_present (run rqs (init_world dir))) as Hfiles
    by apply run_keeps_blobs_present, Forall_nil_2.
  intros r Hr. unfold rows_from_uploads, blobs_present in *.
  rewrite Forall_forall in Hshape, Hfiles.
  destruct (Hshape r Hr) as [(name & Hp & He) Ht].
  split; [by exists name|]. split; [done|by apply Hfiles].
Qed.

Lemma rows_keep_the_shape_of_their_upload_witness :
  let rqs := [PostUpload {| filename := "sub/daun.Jpeg"; file := [Byte.xff] |} 1 (no_fault 8);
              PostUpload {| filename := "daun.gif"; file := [] |} 1 (no_fault 9)] in
  let r := {| id := 1; path := "uploads/sub/daun.Jpeg"; hasil := 1;
              created_at := 8; updated_at := 8 |} in
  (∃ name, path r = "uploads/" +:+ name ∧ extension_allowed name) ∧
  created_at r = updated_at r ∧
  is_Some (blobs (run rqs (init_world ∅)) !! path r).
Proof.
  intros rqs r. apply (rows_keep_the_shape_of_their_upload rqs ∅ r).
  apply elem_of_cons. left. reflexivity.
Defined.

(** X9: when no commit raises (file writes and validation may fail), the
    ids of a table grown from a fresh database have no gaps: the k-th row
    has id k, and the counter is one more than the number of rows. *)
Theorem ids_are_consecutive_without_commit_failures rqs dir :
  commits_succeed rqs →
  map id (rows (run rqs (init_world dir)))
    = seqZ 1 (Z.of_nat (length (rows (run rqs (init_world dir))))) ∧
  auto_increment (run rqs (init_world dir))
    = 1 + Z.of_nat (length (rows (run rqs (init_world dir)))).
Proof. apply run_keeps_consecutive. Qed.

Lemma ids_are_consecutive_without_commit_failures_witness :
  let rqs := [PostUpload {| filename := "a.png"; file := [] |} 1 (no_fault 1);
              PostUpload {| filename := "b.txt"; file := [] |} 1 (no_fault 2);
              PostUpload {| filename := "c.png"; file := [] |} 0
                {| blob_fault := OpenFails; commit_fault := CommitOk; db_now := 3 |};
              GetKlasifikasi None None;
              PostUpload {| filename := "d.bmp"; file := [] |} 0 (no_fault 4)] in
  map id (rows (run rqs (init_world ∅)))
    = seqZ 1 (Z.of_nat (length (rows (run rqs (init_world ∅))))) ∧
  auto_increment (run rqs (init_world ∅))
    = 1 + Z.of_nat (length (rows (run rqs (init_world ∅)))).
Proof.
  intros rqs. apply (ids_are_consecutive_without_commit_failures rqs ∅).
  repeat apply List.Forall_cons; try apply List.Forall_nil; try exact I;
    intros c; discriminate.
Defined.

(** X10: on a table grown from a fresh database the list operation pages
    through the rows in the reverse of their insertion order, newest
    first: for skip and limit not negative it returns the first limit rows
    after the first skip of the reversed table. *)
Theorem list_is_the_reversed_table rqs dir skip lim :
  0 <= skip → 0 <= lim →
  handle (GetKlasifikasi (Some skip) (Some lim)) (run rqs (init_world dir)) =
    (answer 200
       (Semua (Z.of_nat (length (rows (run rqs (init_world dir)))))
          (map to_dict (take (Z.to_nat lim)
                          (drop (Z.to_nat skip)
                             (reverse (rows (run rqs (init_world dir)))))))),
     run rqs (init_world dir)).
Proof.
  intros Hs Hl. rewrite get_all_data_page by done.
  destruct (run_keeps_ascending rqs dir) as (_ & Ha & _).
  by rewrite (order_by_id_desc_ascending _ Ha).
Qed.

Lemma list_is_the_reversed_table_witness :
  let up n h := PostUpload {| filename := "cabai.png"; file := [] |} h (no_fault n) in
  let rqs := [up 1 1; up 2 0; GetStatistik; up 3 1; up 4 1] in
  handle (GetKlasifikasi (Some 1) (Some 2)) (run rqs (init_world ∅)) =
    (answer 200
       (Semua (Z.of_nat (length (rows (run rqs (init_world ∅)))))
          (map to_dict (take (Z.to_nat 2)
                          (drop (Z.to_nat 1) (reverse (rows (run rqs (init_world ∅)))))))),
     run rqs (init_world ∅)).
Proof.
  intros up rqs. apply (list_is_the_reversed_table rqs ∅ 1 2); lia.
Defined.

(** X11: on a table with unique ids below the counter, the record a
    successful upload creates is the first of the list afterwards: the
    page of limit [lim >= 1] from the start is the created record followed
    by what the page of limit [lim - 1] held before the upload, and the
    total is one more. *)
Theorem created_record_is_listed_first f h env w lim :
  store_ok w → extension_allowed (filename f) → label_valid h → fault_free env →
  1 <= lim →
  ∃ d total rest,
    fst (handle (PostUpload f h env) w) = answer 201 (Disimpan d) ∧
    fst (handle (GetKlasifikasi (Some 0) (Some (lim - 1))) w)
      = answer 200 (Semua total rest) ∧
    fst (handle (GetKlasifikasi (Some 0) (Some lim))
           (snd (handle (PostUpload f h env) w)))
      = answer 200 (Semua (total + 1) (d :: rest)).
Proof.
  intros [Hu Hb] He Hl [Hbf Hcf] Hlim.
  rewrite upload_created, !get_all_data_page by (done || lia).
  eexists _, _, _. split; [reflexivity|]. split; [reflexivity|].
  cbn [fst snd rows]. rewrite order_by_id_desc_snoc by done.
  rewrite length_app, Nat2Z.inj_add. cbn [length].
  replace (Z.to_nat lim) with (S (Z.to_nat (lim - 1))) by lia.
  reflexivity.
Qed.

Lemma created_record_is_listed_first_witness :
  let up n h := PostUpload {| filename := "cabai.png"; file := [] |} h (no_fault n) in
  let w := run [up 1 1; up 2 0] (init_world ∅) in
  let f := {| filename := "baru.bmp"; file := [Byte.x42] |} in
  ∃ d total rest,
    fst (handle (PostUpload f 1 (no_fault 3)) w) = answer 201 (Disimpan d) ∧
    fst (handle (GetKlasifikasi (Some 0) (Some (2 - 1))) w)
      = answer 200 (Semua total rest) ∧
    fst (handle (GetKlasifikasi (Some 0) (Some 2))
           (snd (handle (PostUpload f 1 (no_fault 3)) w)))
      = answer 200 (Semua (total + 1) (d :: rest)).
Proof.
  intros up w f.
  apply (created_record_is_listed_first f 1 (no_fault 3) w 2).
  - apply run_keeps_store_ok, init_world_store_ok.
  - apply extension_allowed_iff, (bool_decide_unpack _). reflexivity.
  - unfold label_valid. lia.
  - split; reflexivity.
  - lia.
Defined.

(** X12: for skip and limits not negative, two consecutive pages of the
    list make up the page of their joint size: the page at [skip] of
    limit [l1] followed by the page at [skip + l1] of limit [l2] is the
    page at [skip] of limit [l1 + l2], all three with the same total; and a
    page holds exactly [min(limit, max(0, total - skip))] records, so
    limit 0, or a skip at or past the total, gives an empty page. *)
Theorem consecutive_pages_concatenate skip l1 l2 w :
  0 <= skip → 0 <= l1 → 0 <= l2 →
  ∃ total d1 d2,
    fst (handle (GetKlasifikasi (Some skip) (Some l1)) w)
      = answer 200 (Semua total d1) ∧
    fst (handle (GetKlasifikasi (Some (skip + l1)) (Some l2)) w)
      = answer 200 (Semua total d2) ∧
    fst (handle (GetKlasifikasi (Some skip) (Some (l1 + l2))) w)
      = answer 200 (Semua total (d1 ++ d2)) ∧
    total = Z.of_nat (length (rows w)) ∧
    Z.of_nat (length d1) = Z.min l1 (Z.max 0 (total - skip)).
Proof.
  intros Hs H1 H2. rewrite !get_all_data_page by lia.
  eexists _, _, _. split; [reflexivity|]. split; [reflexivity|]. cbn [fst].
  split; [|split; [reflexivity|]].
  - rewrite <- map_app, !Z2Nat.inj_add by lia.
    by rewrite <- drop_drop, take_take_drop.
  - rewrite length_map, length_take, length_drop.
    rewrite (Permutation_length (order_by_id_desc_perm (rows w))). lia.
Qed.

Lemma consecutive_pages_concatenate_witness :
  let up n h := PostUpload {| filename := "cabai.png"; file := [] |} h (no_fault n) in
  let w := run [up 1 1; up 2 0; up 3 1; up 4 0; up 5 1] (init_world ∅) in
  ∃ total d1 d2,
    fst (handle (GetKlasifikasi (Some 1) (Some 2)) w) = answer 200 (Semua total d1) ∧
    fst (handle (GetKlasifikasi (Some (1 + 2)) (Some 3)) w)
      = answer 200 (Semua total d2) ∧
    fst (handle (GetKlasifikasi (Some 1) (Some (2 + 3))) w)
      = answer 200 (Semua total (d1 ++ d2)) ∧
    total = Z.of_nat (length (rows w)) ∧
    Z.of_nat (length d1) = Z.min 2 (Z.max 0 (total - 1)).
Proof.
  intros up w. apply (consecutive_pages_concatenate 1 2 3 w); lia.
Defined.

(** X13: on a table with unique ids, every record that the list operation
    or the status query returns can be fetched by its id, and the fetch
    returns the very same record. *)
Theorem listed_records_are_found_by_id skip lim h w :
  ids_unique w →
  (0 <= skip → 0 <= lim →
   ∃ total data,
     fst (handle (GetKlasifikasi (Some skip) (Some lim)) w)
       = answer 200 (Semua total data) ∧
     ∀ d, d ∈ data →
          handle (GetKlasifikasiId (Dict.id d)) w = (answer 200 (Satu d), w)) ∧
  (label_valid h →
   ∃ flt total data,
     fst (handle (GetKlasifikasiStatus h) w) = answer 200 (PerStatus flt total data) ∧
     ∀ d, d ∈ data →
          handle (GetKlasifikasiId (Dict.id d)) w = (answer 200 (Satu d), w)).
Proof.
  intros Hu. split.
  - intros Hs Hl. rewrite get_all_data_page by done.
    eexists _, _. split; [reflexivity|].
    intros d (r & -> & Hr)%list_elem_of_fmap. apply found_by_its_id; [done|].
    apply elem_of_page in Hr. by rewrite order_by_id_desc_perm in Hr.
  - intros Hl. rewrite get_by_status_rows by done.
    eexists _, _, _. split; [reflexivity|].
    intros d (r & -> & Hr)%list_elem_of_fmap. apply found_by_its_id; [done|].
    rewrite order_by_id_desc_perm in Hr.
    by apply list_elem_of_In, filter_In, proj1, list_elem_of_In in Hr.
Qed.

Lemma listed_records_are_found_by_id_witness :
  let up n h := PostUpload {| filename := "cabai.png"; file := [] |} h (no_fault n) in
  let w := run [up 1 1; up 2 0; up 3 1] (init_world ∅) in
  ∃ total data,
    fst (handle (GetKlasifikasi (Some 1) (Some 5)) w) = answer 200 (Semua total data) ∧
    ∀ d, d ∈ data →
         handle (GetKlasifikasiId (Dict.id d)) w = (answer 200 (Satu d), w).
Proof.
  intros up w.
  refine (proj1 (listed_records_are_found_by_id 1 5 0 w _) _ _).
  - apply run_keeps_store_ok, init_world_store_ok.
  - lia.
  - lia.
Defined.

(** X14: the status query and the statistics agree on every store: the
    total of the query for label 1 is the statistics' status_sehat and the
    total of the query for label 0 is its status_sakit, each total is the
    number of records returned, the filter texts are "Status Sehat" and
    "Status Sakit", and every record of the first is rendered "Sehat",
    every record of the second "Sakit". *)
Theorem status_queries_agree_with_statistics w :
  ∃ st d1 d0,
    fst (handle GetStatistik w) = answer 200 (Statistics st) ∧
    fst (handle (GetKlasifikasiStatus 1) w)
      = answer 200 (PerStatus "Status Sehat" (status_sehat st) d1) ∧
    fst (handle (GetKlasifikasiStatus 0) w)
      = answer 200 (PerStatus "Status Sakit" (status_sakit st) d0) ∧
    Z.of_nat (length d1) = status_sehat st ∧
    Z.of_nat (length d0) = status_sakit st ∧
    (∀ d, d ∈ d1 → Dict.hasil d = "Sehat") ∧
    (∀ d, d ∈ d0 → Dict.hasil d = "Sakit").
Proof.
  rewrite get_statistics_counts, !get_by_status_rows by (unfold label_valid; lia).
  cbn zeta. cbn [fst]. eexists _, _, _. split; [reflexivity|].
  assert (∀ h, Z.of_nat (length (map to_dict (order_by_id_desc
            (List.filter (fun r => hasil r =? h) (rows w))))) = count_label h (rows w))
    as Hlen.
  { intros h. rewrite length_map.
    by rewrite (Permutation_length (order_by_id_desc_perm _)). }
  cbn [status_sehat status_sakit]. rewrite !Hlen.
  do 4 (split; [reflexivity|]).
  split; intros d (r & -> & Hr)%list_elem_of_fmap;
    rewrite order_by_id_desc_perm in Hr;
    apply list_elem_of_In, filter_In, proj2, Z.eqb_eq in Hr;
    cbn; by rewrite Hr.
Qed.

(** X15: when every stored label is 0 or 1 (as on any table grown from a
    fresh database), the two status queries split the table: the records
    returned for label 1 together with those returned for label 0 are the
    records of the whole table, each exactly once, and the two totals add
    up to the number of rows. *)
Theorem status_queries_partition_the_table w :
  labels_valid w →
  ∃ f1 t1 d1 f0 t0 d0,
    fst (handle (GetKlasifikasiStatus 1) w) = answer 200 (PerStatus f1 t1 d1) ∧
    fst (handle (GetKlasifikasiStatus 0) w) = answer 200 (PerStatus f0 t0 d0) ∧
    d1 ++ d0 ≡ₚ map to_dict (rows w) ∧
    t1 + t0 = Z.of_nat (length (rows w)).
Proof.
  intros Hw. rewrite !get_by_status_rows by (unfold label_valid; lia).
  cbn zeta. cbn [fst]. eexists _, _, _, _, _, _.
  split; [reflexivity|]. split; [reflexivity|].
  assert (map to_dict (order_by_id_desc (List.filter (fun r => hasil r =? 1) (rows w)))
          ++ map to_dict (order_by_id_desc (List.filter (fun r => hasil r =? 0) (rows w)))
          ≡ₚ map to_dict (rows w)) as Hperm.
  { rewrite <- map_app. change (map to_dict) with (fmap (M:=list) to_dict).
    by rewrite !order_by_id_desc_perm, (filter_labels_partition _ Hw). }
  split; [done|].
  rewrite <- Nat2Z.inj_add, <- length_app, Hperm, length_map. done.
Qed.

Lemma status_queries_partition_the_table_witness :
  let up n h := PostUpload {| filename := "cabai.png"; file := [] |} h (no_fault n) in
  let w := run [up 1 1; up 2 0; up 3 7; up 4 1] (init_world ∅) in
  ∃ f1 t1 d1 f0 t0 d0,
    fst (handle (GetKlasifikasiStatus 1) w) = answer 200 (PerStatus f1 t1 d1) ∧
    fst (handle (GetKlasifikasiStatus 0) w) = answer 200 (PerStatus f0 t0 d0) ∧
    d1 ++ d0 ≡ₚ map to_dict (rows w) ∧
    t1 + t0 = Z.of_nat (length (rows w)).
Proof.
  intros up w. apply (status_queries_partition_the_table w).
  apply run_keeps_labels_valid, Forall_nil_2.
Defined.

(** X16: the answers of the four read operations depend on the table
    only, so an upload is visible to them exactly when it commits a row.
    An upload that commits none (refused, or failed at the file write or
    at the commit) leaves every read answered as before, even when it has
    created or overwritten a file; an upload that commits a row raises the
    statistics' total by one, also when the refresh after the commit raises
    and the upload itself is answered 500. *)
Theorem upload_is_visible_exactly_when_it_commits f h env rq w :
  (¬ commits_a_row f h env → is_read rq = true →
   fst (handle rq (snd (handle (PostUpload f h env) w))) = fst (handle rq w)) ∧
  (commits_a_row f h env →
   ∃ st st',
     fst (handle GetStatistik w) = answer 200 (Statistics st) ∧
     fst (handle GetStatistik (snd (handle (PostUpload f h env) w)))
       = answer 200 (Statistics st') ∧
     total_data st' = total_data st + 1) ∧
  (commits_a_row f h env → commit_fault env = RefreshFails →
   upload_status f h env w = 500).
Proof.
  split; [|split].
  - intros Hno Hrq. apply read_depends_on_rows; [done|].
    by destruct (upload_commits_or_not f h env w) as [[? _]|[_ ?]].
  - intros Hyes. rewrite !get_statistics_counts. cbn zeta. cbn [fst].
    eexists _, _. split; [reflexivity|]. split; [reflexivity|].
    destruct (upload_commits_or_not f h env w) as [[_ ->]|[? _]]; [|done].
    cbn [total_data]. rewrite length_app. cbn [length]. lia.
  - intros (He & Hl & Hb & _) Hc. unfold upload_status.
    by rewrite upload_refresh_fails.
Qed.

Lemma upload_is_visible_exactly_when_it_commits_witness :
  let up n h := PostUpload {| filename := "cabai.png"; file := [Byte.x01] |} h (no_fault n) in
  let w := run [up 1 1; up 2 0] (init_world ∅) in
  let f := {| filename := "cabai.png"; file := [Byte.x02; Byte.x03] |} in
  let env := {| blob_fault := BlobOk; commit_fault := RefreshFails; db_now := 3 |} in
  upload_status f 1 env w = 500 ∧
  ∃ st st',
    fst (handle GetStatistik w) = answer 200 (Statistics st) ∧
    fst (handle GetStatistik (snd (handle (PostUpload f 1 env) w)))
      = answer 200 (Statistics st') ∧
    total_data st' = total_data st + 1.
Proof.
  intros up w f env.
  assert (commits_a_row f 1 env) as Hc by (apply commits_iff; reflexivity).
  split.
  - apply (proj2 (proj2 (upload_is_visible_exactly_when_it_commits f 1 env GetStatistik w)));
      [exact Hc|reflexivity].
  - apply (proj1 (proj2 (upload_is_visible_exactly_when_it_commits f 1 env GetStatistik w))).
    exact Hc.
Defined.

(** X17: on a table that is not empty and whose records all carry one
    label, the statistics report exactly 100.0 for that label and 0.0 for
    the other, whatever the number of records: the float division of a
    count by itself is 1.0. *)
Theorem statistics_of_a_table_with_one_label w :
  rows w ≠ [] →
  (Forall (fun r => hasil r = 1) (rows w) →
   ∃ st, fst (handle GetStatistik w) = answer 200 (Statistics st) ∧
         persentase_sehat st = PyNum.NFloat 100%float ∧
         persentase_sakit st = PyNum.NFloat 0%float) ∧
  (Forall (fun r => hasil r = 0) (rows w) →
   ∃ st, fst (handle GetStatistik w) = answer 200 (Statistics st) ∧
         persentase_sehat st = PyNum.NFloat 0%float ∧
         persentase_sakit st = PyNum.NFloat 100%float).
Proof.
  intros Hne.
  assert (0 < Z.of_nat (length (rows w))) as Hpos
    by (destruct (rows w); [done|rewrite length_cons; lia]).
  rewrite get_statistics_counts. cbn zeta. cbn [fst].
  split; intros Hall; eexists; (split; [reflexivity|]);
    cbn [persentase_sehat persentase_sakit].
  - rewrite (count_label_all 1 _ Hall), (count_label_none 1 0 _ ltac:(lia) Hall).
    by rewrite percentage_of_all, percentage_of_none.
  - rewrite (count_label_all 0 _ Hall), (count_label_none 0 1 _ ltac:(lia) Hall).
    by rewrite percentage_of_all, percentage_of_none.
Qed.

Lemma statistics_of_a_table_with_one_label_witness :
  let up n := PostUpload {| filename := "cabai.png"; file := [] |} 1 (no_fault n) in
  let w := run [up 1; up 2; up 3] (init_world ∅) in
  ∃ st, fst (handle GetStatistik w) = answer 200 (Statistics st) ∧
        persentase_sehat st = PyNum.NFloat 100%float ∧
        persentase_sakit st = PyNum.NFloat 0%float.
Proof.
  intros up w.
  assert (rows w = map (fun n => {| id := n; path := "uploads/cabai.png"; hasil := 1;
                                   created_at := n; updated_at := n |}) [1; 2; 3])
    as Hrows by (vm_compute; reflexivity).
  refine (proj1 (statistics_of_a_table_with_one_label w _) _); rewrite Hrows.
  - discriminate.
  - repeat constructor.
Defined.

(** X18: a record, once created, is never changed: on a table with unique
    ids below the counter, the record a successful upload returns is what
    a lookup of its id returns after any further sequence of requests,
    whatever those requests are and however they end. *)
Theorem created_record_is_returned_unchanged_ever_after f h env rqs w :
  store_ok w → extension_allowed (filename f) → label_valid h → fault_free env →
  ∃ d, fst (handle (PostUpload f h env) w) = answer 201 (Disimpan d) ∧
       fst (handle (GetKlasifikasiId (Dict.id d))
              (run rqs (snd (handle (PostUpload f h env) w))))
       = answer 200 (Satu d).
Proof.
  intros Hw He Hl [Hb Hc].
  pose proof (handle_keeps_store_ok (PostUpload f h env) w Hw) as Hw'.
  pose proof (run_extends_rows rqs (snd (handle (PostUpload f h env) w)))
    as [later Hlater].
  revert Hw' Hlater. rewrite upload_created by done. cbn [fst snd rows].
  intros Hw' Hlater. eexists. split; [reflexivity|].
  rewrite found_by_its_id; [done|by apply run_keeps_store_ok|].
  rewrite Hlater, <- app_assoc. apply elem_of_app. right. apply list_elem_of_here.
Qed.

Lemma created_record_is_returned_unchanged_ever_after_witness :
  let f := {| filename := "cabai.png"; file := [Byte.x01] |} in
  let rqs := [PostUpload {| filename := "cabai.png"; file := [Byte.x02] |} 0 (no_fault 2);
              PostUpload {| filename := "lain.bmp"; file := [] |} 1
                {| blob_fault := BlobOk; commit_fault := CommitFails true; db_now := 3 |};
              GetStatistik] in
  ∃ d, fst (handle (PostUpload f 1 (no_fault 1)) (init_world ∅))
         = answer 201 (Disimpan d) ∧
       fst (handle (GetKlasifikasiId (Dict.id d))
              (run rqs (snd (handle (PostUpload f 1 (no_fault 1)) (init_world ∅)))))
       = answer 200 (Satu d).
Proof.
  intros f rqs.
  apply (created_record_is_returned_unchanged_ever_after f 1 (no_fault 1) rqs (init_world ∅)).
  - apply init_world_store_ok.
  - apply extension_allowed_iff, (bool_decide_unpack _). reflexivity.
  - unfold label_valid. lia.
  - split; reflexivity.
Defined.
